(** * ansible-hcp-terraform: the difference engine and the paged collection walker

    A shallow embedding of [plugins/module_utils/hcp_terraform_utils.py]
    ([navigate_hash], [HcpSession.list], [HcpRequest],
    [HcpModule._merge_dictionaries]), of the lookup functions of the
    resource modules ([fetch_by_name], [fetch_by_key], [return_if_object])
    and of the comparison of [hcp_terraform_project] and
    [hcp_terraform_var] ([resource_to_request], [response_to_hash],
    [is_different]), followed by the properties of the specification and
    by further properties of the code.

    Conventions of the embedding:
    - a Python object of the JSON domain is a [value]; a [dict] is an
      association list in insertion order whose keys are pairwise distinct;
      floating point numbers are left out;
    - text is modelled over the code points below 256, one [ascii] each;
    - a computation ends in an [outcome]: it returns, a Python exception
      propagates, [module.fail_json] terminates the process, or the fuel
      given to a recursive or looping function is used up; the recursion
      limit of the interpreter is left out. *)

From Stdlib Require Import ZArith List String Ascii Bool Lia Arith.
From Stdlib Require Import DecimalString DecimalZ DecimalPos Permutation.
Import ListNotations.

Local Open Scope string_scope.
Local Open Scope list_scope.

(* ================================================================== *)
(** * Python objects *)

Unset Elimination Schemes.
Inductive value : Type :=
| VNone
| VBool (b : bool)
| VInt (n : Z)
| VStr (s : string)
| VList (l : list value)
| VDict (d : list (string * value)).
Set Elimination Schemes.

Definition dict : Type := list (string * value).

(** Induction over the tree, with the hypothesis on every element of a list
    and on every value of a mapping. *)
Fixpoint value_induction (P : value -> Prop)
    (HNone : P VNone)
    (HBool : forall b, P (VBool b))
    (HInt : forall n, P (VInt n))
    (HStr : forall s, P (VStr s))
    (HList : forall l, Forall P l -> P (VList l))
    (HDict : forall d, Forall (fun kv => P (snd kv)) d -> P (VDict d))
    (v : value) {struct v} : P v :=
  match v with
  | VNone => HNone
  | VBool b => HBool b
  | VInt n => HInt n
  | VStr s => HStr s
  | VList l =>
      HList l
        ((fix all (xs : list value) : Forall P xs :=
            match xs with
            | [] => Forall_nil P
            | x :: xs' =>
                Forall_cons x
                  (value_induction P HNone HBool HInt HStr HList HDict x) (all xs')
            end) l)
  | VDict d =>
      HDict d
        ((fix all (xs : dict) : Forall (fun kv => P (snd kv)) xs :=
            match xs with
            | [] => Forall_nil _
            | kv :: xs' =>
                Forall_cons kv
                  (value_induction P HNone HBool HInt HStr HList HDict (snd kv))
                  (all xs')
            end) d)
  end.

(** Nesting depth: the number of recursive calls the comparator needs. *)
Fixpoint height (v : value) : nat :=
  match v with
  | VList l => S (fold_right (fun x acc => Nat.max (height x) acc) 0 l)
  | VDict d =>
      S (fold_right (fun kv acc => Nat.max (height (snd kv)) acc) 0 d)
  | _ => 0
  end.

(** Python truth value: [bool(obj)], [if obj], [not obj]. *)
Definition truthy (v : value) : bool :=
  match v with
  | VNone => false
  | VBool b => b
  | VInt n => negb (n =? 0)%Z
  | VStr s => negb (s =? EmptyString)
  | VList l => match l with [] => false | _ :: _ => true end
  | VDict d => match d with [] => false | _ :: _ => true end
  end.

(** [obj is None] *)
Definition is_none (v : value) : bool :=
  match v with VNone => true | _ => false end.

(** ** Exceptions and outcomes *)

Inductive exn : Type :=
| UnicodeError
| AttributeError
| TypeError
| KeyError
| IndexError
| JSONDecodeError.

(** The diagnostics of [module.fail_json]. *)
Inductive failure : Type :=
| InvalidJson                       (* 'Invalid JSON response with error: ...' *)
| ApiErrors (errors : value)        (* msg=navigate_hash(result, ['errors']) *)
| ApiCallError (body : value)       (* 'API call returned error: ...' *)
| ExpectedOne (found : nat) (items : value). (* 'Expected 1 result, found: ...' *)

Inductive outcome (A : Type) : Type :=
| Returns (a : A)
| Raises (e : exn)
| Fails (msg : failure)
| Timeout.

Arguments Returns {A} a.
Arguments Raises {A} e.
Arguments Fails {A} msg.
Arguments Timeout {A}.

Definition bind {A B : Type} (m : outcome A) (k : A -> outcome B) : outcome B :=
  match m with
  | Returns a => k a
  | Raises e => Raises e
  | Fails msg => Fails msg
  | Timeout => Timeout
  end.

Declare Scope py_scope.
Delimit Scope py_scope with py.
Notation "x <- m ;; k" := (bind m (fun x => k))
  (at level 61, m at next level, right associativity) : py_scope.
Local Open Scope py_scope.

(** [try: body except UnicodeError: handler] *)
Definition except_UnicodeError {A : Type} (body handler : outcome A) : outcome A :=
  match body with
  | Raises UnicodeError => handler
  | other => other
  end.

(** A [for] loop that appends one result per item. *)
Fixpoint for_each {A B : Type} (f : A -> outcome B) (items : list A)
  : outcome (list B) :=
  match items with
  | [] => Returns []
  | item :: rest =>
      c <- f item ;;
      cs <- for_each f rest ;;
      Returns (c :: cs)
  end.

(** ** Mappings *)

(** [d.get(key)] on the association list; [None] when the key is absent. *)
Fixpoint dict_get (key : string) (d : dict) : option value :=
  match d with
  | [] => None
  | (k, v) :: rest => if k =? key then Some v else dict_get key rest
  end.

(** [d[key] = v]: replaces the value of an existing key in place, appends a
    new key at the end. *)
Fixpoint dict_set (key : string) (v : value) (d : dict) : dict :=
  match d with
  | [] => [(key, v)]
  | (k, w) :: rest =>
      if k =? key then (k, v) :: rest else (k, w) :: dict_set key v rest
  end.

Definition keys (d : dict) : list string := map fst d.

(** The value of [d.get(key)]. *)
Definition value_of (d : dict) (key : string) : value :=
  match dict_get key d with Some v => v | None => VNone end.

(** [obj.get(key, default)]: only a mapping has the method. *)
Definition py_get_default (obj : value) (key : string) (default : value)
  : outcome value :=
  match obj with
  | VDict d =>
      Returns (match dict_get key d with Some v => v | None => default end)
  | _ => Raises AttributeError
  end.

(** [obj.get(key)] *)
Definition py_get (obj : value) (key : string) : outcome value :=
  py_get_default obj key VNone.

(** [obj[key]] for a text key. *)
Definition py_getitem (obj : value) (key : string) : outcome value :=
  match obj with
  | VDict d =>
      match dict_get key d with
      | Some v => Returns v
      | None => Raises KeyError
      end
  | _ => Raises TypeError
  end.

(** [sub in s] on text. *)
Fixpoint substring_of (sub s : string) : bool :=
  prefix sub s
  || match s with
     | EmptyString => false
     | String _ s' => substring_of sub s'
     end.

(** [key in obj] for a text key: a key of a mapping, an element of a list, a
    substring of a text; the other objects are not containers. *)
Definition py_contains (key : string) (obj : value) : outcome bool :=
  match obj with
  | VDict d => Returns (existsb (String.eqb key) (keys d))
  | VList l =>
      Returns (existsb (fun x => match x with
                                 | VStr s => s =? key
                                 | _ => false
                                 end) l)
  | VStr s => Returns (substring_of key s)
  | _ => Raises TypeError
  end.

(** [iter(obj)]: the elements of a list, the keys of a mapping, the
    characters of a text. *)
Fixpoint chars (s : string) : list value :=
  match s with
  | EmptyString => []
  | String c s' => VStr (String c EmptyString) :: chars s'
  end.

Definition py_iter (obj : value) : outcome (list value) :=
  match obj with
  | VList l => Returns l
  | VDict d => Returns (map VStr (keys d))
  | VStr s => Returns (chars s)
  | _ => Raises TypeError
  end.

(** [len(obj)] *)
Definition py_len (obj : value) : outcome nat :=
  match obj with
  | VList l => Returns (List.length l)
  | VDict d => Returns (List.length d)
  | VStr s => Returns (String.length s)
  | _ => Raises TypeError
  end.

(** [a + b] *)
Definition py_add (a b : value) : outcome value :=
  let as_int (v : value) : option Z :=
    match v with
    | VInt n => Some n
    | VBool b => Some (if b then 1 else 0)%Z
    | _ => None
    end in
  match a, b with
  | VList x, VList y => Returns (VList (x ++ y))
  | VStr x, VStr y => Returns (VStr (x ++ y))
  | _, _ =>
      match as_int a, as_int b with
      | Some x, Some y => Returns (VInt (x + y))
      | _, _ => Raises TypeError
      end
  end.

(** [obj.pop(0)] *)
Definition py_pop0 (obj : value) : outcome value :=
  match obj with
  | VList (x :: _) => Returns x
  | VList [] => Raises IndexError
  | VDict _ => Raises KeyError
  | _ => Raises AttributeError
  end.

(* ================================================================== *)
(** * Text *)

(** ** [str(obj)] and [repr(obj)] *)

Definition hex_digit (n : nat) : ascii :=
  if (n <? 10)%nat then ascii_of_nat (48 + n) else ascii_of_nat (87 + n).

(** A code point [repr] writes as an escape: the control characters, DEL,
    and in the upper half the C1 controls, the no-break space and the soft
    hyphen. *)
Definition unprintable (n : nat) : bool :=
  ((n <? 32) || (n =? 127) || ((128 <=? n) && (n <=? 160)) || (n =? 173))%nat.

Definition double_quote : string := String (ascii_of_nat 34) EmptyString.

Definition quote_of (s : string) : ascii :=
  if substring_of "'" s && negb (substring_of double_quote s)
  then ascii_of_nat 34
  else "'"%char.

Fixpoint escape (quote : ascii) (s : string) : string :=
  match s with
  | EmptyString => EmptyString
  | String c s' =>
      let n := nat_of_ascii c in
      ((if Ascii.eqb c quote || Ascii.eqb c "\"%char
       then String "\"%char (String c EmptyString)
       else if (n =? 9)%nat then "\t"
       else if (n =? 10)%nat then "\n"
       else if (n =? 13)%nat then "\r"
       else if unprintable n
       then String "\"%char
              (String "x"%char
                 (String (hex_digit (n / 16))
                    (String (hex_digit (n mod 16)) EmptyString)))
       else String c EmptyString) ++ escape quote s')%string
  end.

Definition repr_text (s : string) : string :=
  let q := quote_of s in
  String q (escape q s ++ String q EmptyString)%string.

Fixpoint join (sep : string) (parts : list string) : string :=
  match parts with
  | [] => EmptyString
  | [p] => p
  | p :: rest => (p ++ sep ++ join sep rest)%string
  end.

Fixpoint py_repr (v : value) : string :=
  match v with
  | VNone => "None"
  | VBool true => "True"
  | VBool false => "False"
  | VInt n => NilZero.string_of_int (Z.to_int n)
  | VStr s => repr_text s
  | VList l => ("[" ++ join ", " (map py_repr l) ++ "]")%string
  | VDict d =>
      ("{" ++ join ", "
                (map (fun kv =>
                        (repr_text (fst kv) ++ ": " ++ py_repr (snd kv))%string)
                   d)
           ++ "}")%string
  end.

Definition py_str (v : value) : string :=
  match v with
  | VStr s => s
  | _ => py_repr v
  end.

(** ** [str.capitalize()]

    The first character in upper case, the others in lower case. Only the
    ASCII letters are mapped; the other characters are kept, which leaves
    the comparison of the result with ['True'] as Python has it (no
    character beyond ASCII is mapped to one of its four letters). *)

Definition upper_char (c : ascii) : ascii :=
  let n := nat_of_ascii c in
  if ((97 <=? n) && (n <=? 122))%nat then ascii_of_nat (n - 32) else c.

Definition lower_char (c : ascii) : ascii :=
  let n := nat_of_ascii c in
  if ((65 <=? n) && (n <=? 90))%nat then ascii_of_nat (n + 32) else c.

Fixpoint lower (s : string) : string :=
  match s with
  | EmptyString => EmptyString
  | String c s' => String (lower_char c) (lower s')
  end.

Definition capitalize (s : string) : string :=
  match s with
  | EmptyString => EmptyString
  | String c s' => String (upper_char c) (lower s')
  end.

(* ================================================================== *)
(** * [navigate_hash] *)

(** [navigate_hash(source, path, default=None)]. The keys of a path are
    text. The emptiness test comes first, so an empty path is only indexed
    ([path[0]], IndexError) under a non-empty source. *)
Fixpoint navigate_hash (source : value) (path : list string) (default : value)
  {struct path} : outcome value :=
  if negb (truthy source) then Returns VNone
  else
    match path with
    | [] => Raises IndexError
    | key :: path' =>
        present <- py_contains key source ;;
        if negb present then Returns default
        else
          result <- py_getitem source key ;;
          match path' with
          | [] => Returns result
          | _ :: _ => navigate_hash result path' default
          end
    end.

(* ================================================================== *)
(** * [HcpRequest]: the difference engine *)

Section HcpRequest.

(** [ansible.module_utils._text.to_text] is a library function. It returns
    a text as it is and the [str()] of any other object; the source expects
    that it "may throw UnicodeErrors". On which objects it does is left
    open: [unicode_fails] decides it. *)
Variable unicode_fails : value -> bool.

Definition to_text (obj : value) : outcome string :=
  if unicode_fails obj then Raises UnicodeError else Returns (py_str obj).

(** [_convert_value(self, value)] *)
Fixpoint _convert_value (v : value) : outcome value :=
  match v with
  | VList l =>
      new_list <- for_each _convert_value l ;;
      Returns (VList new_list)
  | VDict d =>
      new_dict <-
        for_each (fun kv => c <- _convert_value (snd kv) ;;
                            Returns (fst kv, c)) d ;;
      Returns (VDict new_dict)
  | other => t <- to_text other ;; Returns (VStr t)
  end.

(** [_compare_boolean(self, req_value, resp_value)] *)
Definition _compare_boolean (req_value : bool) (resp_value : value)
  : outcome value :=
  except_UnicodeError
    (t <- to_text resp_value ;;
     if Bool.eqb req_value (capitalize t =? "True")
     then Returns VNone
     else Returns (VBool true))
    (Returns VNone).

Section Loops.

(** The recursive call [self._compare_value]. *)
Variable compare : value -> value -> outcome value.

(** The inner loop of [_compare_lists]: every response item is compared,
    there is no [break]. *)
Fixpoint find_item (req_item : value) (resp_items : list value)
    (found_item : bool) : outcome bool :=
  match resp_items with
  | [] => Returns found_item
  | resp_item :: rest =>
      diff <- compare req_item resp_item ;;
      find_item req_item rest
        (if negb (truthy diff) then true else found_item)
  end.

(** The outer loop of [_compare_lists]. *)
Fixpoint each_req_item (req_items : list value) (new_resp_list : value)
    (difference : list value) : outcome (list value) :=
  match req_items with
  | [] => Returns difference
  | req_item :: rest =>
      resp_items <- py_iter new_resp_list ;;
      found_item <- find_item req_item resp_items false ;;
      each_req_item rest new_resp_list
        (if negb found_item && truthy req_item
         then difference ++ [req_item]
         else difference)
  end.

(** [_compare_lists(self, req_list, resp_list)] *)
Definition _compare_lists (req_list resp_list : value) : outcome value :=
  new_req_list <- _convert_value req_list ;;
  new_resp_list <- _convert_value resp_list ;;
  req_items <- py_iter new_req_list ;;
  difference <- each_req_item req_items new_resp_list [] ;;
  Returns (VList difference).

(** The loop of [_compare_dicts] over the keys of the request. *)
Fixpoint each_key (req_keys : list string) (req_dict : dict)
    (resp_dict : value) (difference : dict) : outcome dict :=
  match req_keys with
  | [] => Returns difference
  | key :: rest =>
      resp_value <- py_get resp_dict key ;;
      if negb (is_none resp_value)
      then
        req_value <- py_get (VDict req_dict) key ;;
        resp_value <- py_get resp_dict key ;;
        diff_value <- compare req_value resp_value ;;
        each_key rest req_dict resp_dict
          (if truthy diff_value
           then dict_set key diff_value difference
           else difference)
      else each_key rest req_dict resp_dict difference
  end.

(** [_compare_dicts(self, req_dict, resp_dict)] *)
Definition _compare_dicts (req_dict : dict) (resp_dict : value)
  : outcome value :=
  difference <- each_key (keys req_dict) req_dict resp_dict [] ;;
  Returns (VDict difference).

End Loops.

(** [_compare_value(self, req_value, resp_value)]. The recursion goes
    through [_compare_lists] and [_compare_dicts] and is bounded by
    [fuel]. *)
Fixpoint _compare_value (fuel : nat) (req_value resp_value : value)
  : outcome value :=
  match fuel with
  | O => Timeout
  | S fuel' =>
      if is_none resp_value then Returns VNone
      else
        except_UnicodeError
          (match req_value with
           | VList _ =>
               _compare_lists (_compare_value fuel') req_value resp_value
           | VDict req_dict =>
               _compare_dicts (_compare_value fuel') req_dict resp_value
           | VBool b => _compare_boolean b resp_value
           | _ =>
               a <- to_text req_value ;;
               b <- to_text resp_value ;;
               if negb (a =? b) then Returns req_value else Returns VNone
           end)
          (Returns VNone)
  end.

(** [HcpRequest(request).difference(HcpRequest(response))]: one call of
    [_compare_value] per level of the request is enough. *)
Definition difference (request response : value) : outcome value :=
  _compare_value (S (height request)) request response.

(** [HcpRequest(a) == HcpRequest(b)] *)
Definition __eq__ (a b : value) : outcome bool :=
  d1 <- difference a b ;;
  if truthy d1 then Returns false
  else d2 <- difference b a ;; Returns (negb (truthy d2)).

(** [HcpRequest(a) != HcpRequest(b)] *)
Definition __ne__ (a b : value) : outcome bool :=
  r <- __eq__ a b ;; Returns (negb r).

End HcpRequest.

(** [to_text] on Python 3 and the objects of the JSON domain: it never
    raises. *)
Definition never_fails (obj : value) : bool := false.

(* ================================================================== *)
(** * [HcpSession] and the resource modules *)

(** A [requests.Response]: the status and the body, [None] when the body is
    not JSON ([response.json()] raises). *)
Record response : Type := mkResponse {
  status_code : Z;
  json : option value
}.

(** A GET request as it leaves the process: the URL and the query
    parameters, [None] without a [params] dictionary. *)
Record request : Type := mkRequest {
  url : string;
  query : option dict
}.

(** The state of a run: the dictionary objects that are passed by reference
    (a [params] dictionary is addressed by its position in [heap]), and the
    requests sent so far. *)
Record world : Type := mkWorld {
  heap : list dict;
  sent : list request
}.

(** A reference to a dictionary object; [None] is Python's [None]. *)
Definition ref : Type := option nat.

Definition M (A : Type) : Type := world -> outcome A * world.

Definition ret {A : Type} (a : A) : M A := fun w => (Returns a, w).

Definition lift {A : Type} (o : outcome A) : M A := fun w => (o, w).

Definition fail_json {A : Type} (msg : failure) : M A :=
  fun w => (Fails msg, w).

Definition mbind {A B : Type} (m : M A) (k : A -> M B) : M B :=
  fun w =>
    match m w with
    | (Returns a, w') => k a w'
    | (Raises e, w') => (Raises e, w')
    | (Fails msg, w') => (Fails msg, w')
    | (Timeout, w') => (Timeout, w')
    end.

Notation "x <~ m ;; k" := (mbind m (fun x => k))
  (at level 61, m at next level, right associativity) : py_scope.

Fixpoint update_nth {A : Type} (n : nat) (a : A) (l : list A) : list A :=
  match l, n with
  | [], _ => []
  | _ :: rest, O => a :: rest
  | x :: rest, S n' => x :: update_nth n' a rest
  end.

(** The dictionary behind a reference. *)
Definition deref (w : world) (r : ref) : option dict :=
  match r with
  | None => None
  | Some l => nth_error (heap w) l
  end.

(** A dictionary display [{...}]: a new object. *)
Definition new_dict (d : dict) : M ref :=
  fun w => (Returns (Some (List.length (heap w))),
            mkWorld (heap w ++ [d]) (sent w)).

(** [params[key] = v] *)
Definition setitem (r : ref) (key : string) (v : value) : M unit :=
  fun w =>
    match r with
    | Some l =>
        match nth_error (heap w) l with
        | Some d =>
            (Returns tt, mkWorld (update_nth l (dict_set key v d) (heap w)) (sent w))
        | None => (Raises TypeError, w)
        end
    | None => (Raises TypeError, w)
    end.

(** [if params:] *)
Definition ref_truthy (r : ref) : M bool :=
  fun w =>
    (Returns (match deref w r with
              | Some (_ :: _) => true
              | _ => false
              end), w).

(** [response.json()] *)
Definition response_json (response : response) : outcome value :=
  match json response with
  | Some result => Returns result
  | None => Raises JSONDecodeError
  end.

(** [try: body except JSONDecodeError: handler] *)
Definition except_JSONDecodeError {A : Type} (body handler : outcome A)
  : outcome A :=
  match body with
  | Raises JSONDecodeError => handler
  | other => other
  end.

(** [return_if_object(module, response, allow_not_found=False)] of the
    modules [hcp_terraform_project], [hcp_terraform_var],
    [hcp_terraform_varset] and [hcp_terraform_workspace]. *)
Definition return_if_object (allow_not_found : bool) (response : response)
  : outcome value :=
  if allow_not_found && (status_code response =? 404)%Z then Returns VNone
  else if (status_code response =? 204)%Z then Returns VNone
  else if allow_not_found && (status_code response =? 403)%Z then Returns VNone
  else
    result <- except_JSONDecodeError (response_json response)
                (Fails InvalidJson) ;;
    errors <- navigate_hash result ["errors"] VNone ;;
    if truthy errors
    then errors' <- navigate_hash result ["errors"] VNone ;;
         Fails (ApiErrors errors')
    else Returns result.

(** [HcpModule.raise_for_status(response)]: [response.raise_for_status()]
    raises on a status from 400 to 599, and the handler formats the body
    into the message of [fail_json]. *)
Definition raise_for_status (response : response) : outcome unit :=
  if ((400 <=? status_code response) && (status_code response <? 600))%Z
  then body <- response_json response ;; Fails (ApiCallError body)
  else Returns tt.

(** [return_if_object] of the modules [hcp_terraform_project_info],
    [hcp_terraform_varset_info] and [hcp_terraform_workspace_info]. *)
Definition return_if_object_info (response : response) : outcome value :=
  if (status_code response =? 404)%Z then Returns VNone
  else if (status_code response =? 204)%Z then Returns VNone
  else
    result <- except_JSONDecodeError
                (_ <- raise_for_status response ;; response_json response)
                (Fails InvalidJson) ;;
    errors <- navigate_hash result ["errors"] VNone ;;
    if truthy errors
    then errors' <- navigate_hash result ["errors"] VNone ;;
         Fails (ApiErrors errors')
    else Returns result.

Section HcpSession.

(** The platform: its reply to a request, given how many requests the run
    has sent before. *)
Variable server : nat -> request -> response.

(** [HcpSession.get(url, params)]: the request is recorded and answered; a
    [RequestException] of the transport is left out. *)
Definition get (link : string) (params : ref) : M response :=
  fun w =>
    let rq := mkRequest link (deref w params) in
    (Returns (server (List.length (sent w)) rq),
     mkWorld (heap w) (sent w ++ [rq])).

(** The first statement of the loop body:
    [if params: params['page[number]'] = navigate_hash(...)]
    [else: params = {'page[number]': navigate_hash(...)}] *)
Definition page_number (params : ref) (pageToken : string) (resp : value)
  : M ref :=
  nonempty <~ ref_truthy params ;;
  if nonempty : bool
  then
    page <~ lift (navigate_hash resp ["meta"; "pagination"; pageToken] VNone) ;;
    _ <~ setitem params "page[number]" page ;;
    ret params
  else
    page <~ lift (navigate_hash resp ["meta"; "pagination"; pageToken] VNone) ;;
    new_dict [("page[number]", page)].

(** The last statement of the loop body:
    [if resp.get(array_name): items = items + resp.get(array_name)] *)
Definition add_items (array_name : string) (resp items : value) : M value :=
  data <~ lift (py_get resp array_name) ;;
  if truthy data
  then data' <~ lift (py_get resp array_name) ;;
       lift (py_add items data')
  else ret items.

(** The [while] loop of [HcpSession.list]; one unit of [fuel] per turn. *)
Fixpoint paging (fuel : nat) (link : string)
    (callback : response -> outcome value) (params : ref)
    (array_name pageToken : string) (resp items : value) : M value :=
  match fuel with
  | O => lift Timeout
  | S fuel' =>
      token <~ lift (navigate_hash resp ["meta"; "pagination"; pageToken] VNone) ;;
      if truthy token
      then
        params' <~ page_number params pageToken resp ;;
        r <~ get link params' ;;
        resp' <~ lift (callback r) ;;
        items' <~ add_items array_name resp' items ;;
        paging fuel' link callback params' array_name pageToken resp' items'
      else ret items
  end.

(** [resp.get(array_name) if resp.get(array_name) else []] *)
Definition first_items (array_name : string) (resp : value) : M value :=
  data <~ lift (py_get resp array_name) ;;
  if truthy data then lift (py_get resp array_name) else ret (VList []).

(** [HcpSession.list(url, callback, params, array_name, pageToken)] *)
Definition HcpSession_list (fuel : nat) (link : string)
    (callback : response -> outcome value) (params : ref)
    (array_name pageToken : string) : M value :=
  r <~ get link params ;;
  resp <~ lift (callback r) ;;
  items <~ first_items array_name resp ;;
  paging fuel link callback params array_name pageToken resp items.

(** [fetch_by_name(module, link)] of [hcp_terraform_project]; [name] is
    [module.params.get('name')]. The modules [hcp_terraform_project_info],
    [hcp_terraform_varset], [hcp_terraform_varset_info] and
    [hcp_terraform_workspace] differ in the query parameters and in the
    [return_if_object] they pass. *)
Definition fetch_by_name (fuel : nat) (name : value) (link : string)
  : M value :=
  params <~ new_dict [("filter[names]", name)] ;;
  return_list <~
    HcpSession_list fuel link (return_if_object false) params
      "data" "next-page" ;;
  n <~ lift (py_len return_list) ;;
  if (1 <? n)%nat then fail_json (ExpectedOne n return_list)
  else if truthy return_list then lift (py_pop0 return_list)
  else ret VNone.

(** [obj == text] *)
Definition eq_text (obj : value) (text : string) : bool :=
  match obj with
  | VStr s => s =? text
  | _ => false
  end.

(** The loop of [fetch_by_key] over [return_list['data']]. *)
Fixpoint first_var (key category : string) (vars : list value)
  : outcome value :=
  match vars with
  | [] => Returns VNone
  | var :: rest =>
      attributes <- py_get_default var "attributes" (VDict []) ;;
      k <- py_get attributes "key" ;;
      if eq_text k key
      then
        attributes' <- py_get_default var "attributes" (VDict []) ;;
        c <- py_get attributes' "category" ;;
        if eq_text c category then Returns var
        else first_var key category rest
      else first_var key category rest
  end.

(** [fetch_by_key(module, link)] of [hcp_terraform_var] and
    [hcp_terraform_var_info] (with its [return_if_object]); [key] and
    [category] are [module.params['key']] and [module.params['category']]. *)
Definition fetch_by_key (callback : response -> outcome value)
    (key category : string) (link : string) : M value :=
  r <~ get link None ;;
  return_list <~ lift (callback r) ;;
  data <~ lift (py_getitem return_list "data") ;;
  vars <~ lift (py_iter data) ;;
  lift (first_var key category vars).

End HcpSession.

(* ================================================================== *)
(** * [HcpModule._merge_dictionaries] *)

(** [new.update(b)]: the entries of [b] are written in their order. *)
Fixpoint dict_update (new : dict) (b : list (string * value)) : dict :=
  match b with
  | [] => new
  | (k, v) :: rest => dict_update (dict_set k v new) rest
  end.

(** [_merge_dictionaries(self, a, b)]: [new = a.copy(); new.update(b)]. *)
Definition _merge_dictionaries (a b : dict) : dict := dict_update a b.

(* ================================================================== *)
(** * The module [hcp_terraform_project] *)

(** [v is False] *)
Definition is_False (v : value) : bool :=
  match v with VBool false => true | _ => false end.

(** [a or b] *)
Definition py_or (a b : value) : value := if truthy a then a else b.

Module hcp_terraform_project.

(** The loop of [resource_to_request] over [request.items()]. *)
Fixpoint each_item (items : list (string * value)) (return_vals : dict)
  : dict :=
  match items with
  | [] => return_vals
  | (k, v) :: rest =>
      each_item rest
        (if truthy v || is_False v then dict_set k v return_vals
         else return_vals)
  end.

(** [resource_to_request(module)]; [params] is [module.params]. *)
Definition resource_to_request (params : dict) : value :=
  let request :=
    [("attributes", VDict [("name", value_of params "name");
                           ("description", value_of params "description")]);
     ("type", VStr "projects")] in
  VDict (each_item request []).

(** [response_to_hash(response)] *)
Definition response_to_hash (response : value) : outcome value :=
  attributes <- py_get response "attributes" ;;
  name <- py_get attributes "name" ;;
  attributes' <- py_get response "attributes" ;;
  description <- py_get attributes' "description" ;;
  Returns (VDict [("attributes",
                   VDict [("name", name);
                          ("description",
                           py_or description (VStr EmptyString))])]).

(** [is_different(module, response)] *)
Definition is_different (unicode_fails : value -> bool) (params : dict)
    (response : value) : outcome bool :=
  let request := resource_to_request params in
  response' <- response_to_hash response ;;
  __ne__ unicode_fails request response'.

End hcp_terraform_project.

(* ================================================================== *)
(** * The module [hcp_terraform_var] *)

Module hcp_terraform_var.

(** [resource_to_request(module)]; [params] is [module.params]. *)
Definition resource_to_request (params : dict) : value :=
  VDict [("attributes",
          VDict [("key", value_of params "key");
                 ("value", value_of params "value");
                 ("description", value_of params "description");
                 ("category", value_of params "category");
                 ("hcl", value_of params "hcl");
                 ("sensitive", value_of params "sensitive")]);
         ("type", VStr "vars")].

(** [response_to_hash(response)] *)
Definition response_to_hash (response : value) : outcome value :=
  a1 <- py_get response "attributes" ;; key <- py_get a1 "key" ;;
  a2 <- py_get response "attributes" ;; val <- py_get a2 "value" ;;
  a3 <- py_get response "attributes" ;; description <- py_get a3 "description" ;;
  a4 <- py_get response "attributes" ;; category <- py_get a4 "category" ;;
  a5 <- py_get response "attributes" ;; hcl <- py_get a5 "hcl" ;;
  a6 <- py_get response "attributes" ;; sensitive <- py_get a6 "sensitive" ;;
  Returns (VDict [("attributes",
                   VDict [("key", key);
                          ("value", val);
                          ("description", description);
                          ("category", category);
                          ("hcl", hcl);
                          ("sensitive", sensitive)])]).

(** [is_different(module, response)] *)
Definition is_different (unicode_fails : value -> bool) (params : dict)
    (response : value) : outcome bool :=
  let request := resource_to_request params in
  response' <- response_to_hash response ;;
  __ne__ unicode_fails request response'.

End hcp_terraform_var.

(* ================================================================== *)
(** * Notions used to state the properties *)

(** ** Paths *)

(** The words of the specification: following [path] from [source], a key
    is missing from a non-empty mapping. *)
Fixpoint missing_in_mapping (source : value) (path : list string) : bool :=
  match path, source with
  | key :: path', VDict ((_ :: _) as d) =>
      match dict_get key d with
      | None => true
      | Some result => missing_in_mapping result path'
      end
  | _, _ => false
  end.

(** Following [path] from [source], a key is missing from a non-empty
    container: a mapping without the key, a list without such an element, a
    text without such a substring. *)
Fixpoint missing_in_container (source : value) (path : list string) : bool :=
  match path with
  | [] => false
  | key :: path' =>
      truthy source
      && match source with
         | VDict d =>
             match dict_get key d with
             | None => true
             | Some result => missing_in_container result path'
             end
         | VList _ | VStr _ =>
             match py_contains key source with
             | Returns present => negb present
             | _ => false
             end
         | _ => false
         end
  end.

(** ** Comparison *)







(** An empty difference: what [not diff] accepts. *)
Definition empty (diff : value) : bool := negb (truthy diff).

(** [desired] compares equal to [actual]: the comparison returns an empty
    difference. *)
Definition matches (unicode_fails : value -> bool) (desired actual : value)
  : bool :=
  match difference unicode_fails desired actual with
  | Returns diff => empty diff
  | _ => false
  end.


(** The list rule of the source: the elements are the normalized ones, and
    an empty element is never reported. *)
Definition unmatched (unicode_fails : value -> bool)
    (new_resp_list : list value) (req_item : value) : bool :=
  negb (existsb (matches unicode_fails req_item) new_resp_list)
  && truthy req_item.

(** ** Normal forms *)

(** A tree in text form: every leaf is a text. *)
Fixpoint normalized (v : value) : bool :=
  match v with
  | VStr _ => true
  | VList l => forallb normalized l
  | VDict d => forallb (fun kv => normalized (snd kv)) d
  | _ => false
  end.

(** ** Shapes

    A tree has a shape when every list in it is homogeneous: its elements
    are all scalars, or all lists of one shape, or all mappings whose values
    have the shape given for their key. *)
Unset Elimination Schemes.
Inductive shape : Type :=
| SScalar
| SList (elements : shape)
| SDict (fields : list (string * shape)).
Set Elimination Schemes.

Fixpoint field (key : string) (fields : list (string * shape)) : option shape :=
  match fields with
  | [] => None
  | (k, s) :: rest => if k =? key then Some s else field key rest
  end.

Fixpoint has_shape (s : shape) (v : value) {struct v} : bool :=
  match v, s with
  | VList l, SList elements => forallb (has_shape elements) l
  | VDict d, SDict fields =>
      forallb (fun kv => match field (fst kv) fields with
                         | Some s' => has_shape s' (snd kv)
                         | None => false
                         end) d
  | VNone, SScalar | VBool _, SScalar | VInt _, SScalar | VStr _, SScalar =>
      true
  | _, _ => false
  end.

(** A scalar: neither a list nor a mapping. *)
Definition scalar (v : value) : bool :=
  match v with
  | VList _ | VDict _ => false
  | _ => true
  end.

(** ** Pages *)

(** The cursor [HcpSession.list] reads in an envelope. *)
Definition cursor (pageToken : string) (envelope : value) : outcome value :=
  navigate_hash envelope ["meta"; "pagination"; pageToken] VNone.

Definition cursor_of (pageToken : string) (envelope : value) : value :=
  match cursor pageToken envelope with
  | Returns c => c
  | _ => VNone
  end.

(** The words of the specification: the cursor "is present and neither
    null nor false" (an absent cursor reads as [None]). *)
Definition cursor_given (c : value) : bool :=
  match c with
  | VNone | VBool false => false
  | _ => true
  end.

(** The items of a page: the array under [array_name], nothing when it is
    absent or empty. *)
Definition page_items (array_name : string) (envelope : value) : list value :=
  match envelope with
  | VDict d =>
      match value_of d array_name with
      | VList l => l
      | _ => []
      end
  | _ => []
  end.

(** A page envelope: a mapping whose item array is a list, or absent or
    empty. *)
Definition page_envelope (array_name : string) (envelope : value) : bool :=
  match envelope with
  | VDict d =>
      match value_of d array_name with
      | VList _ => true
      | v => negb (truthy v)
      end
  | _ => false
  end.

(** The query parameters behind [params]; none count as an empty
    dictionary. *)
Definition base_query (q : option dict) : dict :=
  match q with
  | Some d => d
  | None => []
  end.

(** [walk server callback link pageToken q n envelope rest]: after
    [envelope], the pages [rest] are what the platform serves next: each
    page carries a truthy cursor, and the request number [n] with
    ['page[number]'] set to that cursor in the query [q] decodes to the
    following page; the last page carries no truthy cursor. *)
Fixpoint walk (server : nat -> request -> response)
    (callback : response -> outcome value) (link pageToken : string)
    (q : dict) (n : nat) (envelope : value) (rest : list value) : Prop :=
  match rest with
  | [] => exists c, cursor pageToken envelope = Returns c /\ truthy c = false
  | next :: rest' =>
      exists c,
        cursor pageToken envelope = Returns c
        /\ truthy c = true
        /\ callback (server n (mkRequest link
                                 (Some (dict_set "page[number]" c q))))
           = Returns next
        /\ walk server callback link pageToken
             (dict_set "page[number]" c q) (S n) next rest'
  end.

(** The requests that follow the first one on such a walk. *)
Fixpoint follow_ups (link pageToken : string) (q : dict) (envelope : value)
    (rest : list value) : list request :=
  match rest with
  | [] => []
  | next :: rest' =>
      let q' := dict_set "page[number]" (cursor_of pageToken envelope) q in
      mkRequest link (Some q') :: follow_ups link pageToken q' next rest'
  end.

(** The request carries the entries of the dictionary [d] and a page
    number. *)
Definition carries_entries (d : dict) (rq : request) : Prop :=
  exists c, query rq = Some (dict_set "page[number]" c d).

(** The dictionary [dcur] is [d], but for the page number. *)
Definition entries_kept (d dcur : dict) : Prop :=
  dcur = d \/ exists c, dcur = dict_set "page[number]" c d.

(** A collection of two pages: two items and the cursor 2, then one item
    and no cursor. *)
Definition page (items : list value) (next_page : value) : response :=
  mkResponse 200
    (Some (VDict [("data", VList items);
                  ("meta", VDict [("pagination",
                                   VDict [("next-page", next_page)])])])).

Definition two_pages (n : nat) (rq : request) : response :=
  match dict_get "page[number]" (base_query (query rq)) with
  | Some (VInt 2) => page [VStr "c"] VNone
  | _ => page [VStr "a"; VStr "b"] (VInt 2)
  end.

(** A collection whose page carries the cursor 0. *)
Definition cursor_zero (n : nat) (rq : request) : response :=
  page [VStr "a"] (VInt 0).

(** A collection whose second page is an HTTP 500 with an empty JSON
    object as body. *)
Definition second_page_500 (n : nat) (rq : request) : response :=
  match n with
  | O => page [VStr "a"; VStr "b"] (VInt 2)
  | S _ => mkResponse 500 (Some (VDict []))
  end.

(** A variable as the platform lists it. *)
Definition var (id key category : string) : value :=
  VDict [("id", VStr id); ("type", VStr "vars");
         ("attributes", VDict [("key", VStr key);
                               ("category", VStr category)])].

(** A workspace that lists the same key and category twice. *)
Definition duplicate_vars (n : nat) (rq : request) : response :=
  mkResponse 200
    (Some (VDict [("data", VList [var "var-1" "region" "terraform";
                                  var "var-2" "region" "terraform"])])).

(** ** Variables *)

(** The test of [fetch_by_key] on one listed variable: the key and the
    category under [attributes] are the wanted texts. *)
Definition var_matches (key category : string) (var : value) : bool :=
  match var with
  | VDict e =>
      match dict_get "attributes" e with
      | Some (VDict attributes) =>
          eq_text (value_of attributes "key") key
          && eq_text (value_of attributes "category") category
      | Some _ => false
      | None => false
      end
  | _ => false
  end.

(** Whether one call of the comparison finds [b] to match [a]. *)
Definition item_matches (compare : value -> value -> outcome value)
    (a b : value) : bool :=
  match compare a b with
  | Returns diff => empty diff
  | _ => false
  end.

(** The outcomes of the comparator: it returns, or AttributeError
    propagates. *)
Definition returns_or_AttributeError {A : Type} (o : outcome A) : Prop :=
  match o with
  | Returns _ | Raises AttributeError => True
  | _ => False
  end.

Definition returns {A : Type} (o : outcome A) : Prop :=
  match o with
  | Returns _ => True
  | _ => False
  end.

(* ================================================================== *)
(** * Properties of [navigate_hash] *)

Lemma key_in_keys (key : string) (d : dict) :
  existsb (String.eqb key) (keys d)
  = match dict_get key d with Some _ => true | None => false end.
Proof.
  induction d as [|[k v] d IHd]; simpl; [reflexivity|].
  rewrite (String.eqb_sym key k).
  destruct (k =? key); [reflexivity | exact IHd].
Qed.

Lemma navigate_hash_falsy (source : value) (path : list string) (default : value) :
  truthy source = false -> navigate_hash source path default = Returns VNone.
Proof.
  intros Hfalsy. destruct path; simpl; rewrite Hfalsy; reflexivity.
Qed.

Lemma navigate_hash_missing (path : list string) :
  forall source default,
    missing_in_container source path = true ->
    navigate_hash source path default = Returns default.
Proof.
  induction path as [|key path' IH]; intros source default Hmiss.
  - discriminate.
  - simpl in Hmiss. apply andb_true_iff in Hmiss as [Htruthy Hmiss].
    simpl. rewrite Htruthy. simpl.
    destruct source as [| b | n | s | l | d]; try discriminate.
    + simpl in *. destruct (substring_of key s); [discriminate | reflexivity].
    + simpl in *. destruct (existsb _ l); [discriminate | reflexivity].
    + simpl. rewrite key_in_keys.
      destruct (dict_get key d) as [result|]; simpl; [|reflexivity].
      destruct path' as [|key' path'']; [discriminate | apply IH, Hmiss].
Qed.

Lemma navigate_hash_found (path : list string) :
  forall source d1 d2,
    missing_in_container source path = false ->
    navigate_hash source path d1 = navigate_hash source path d2.
Proof.
  induction path as [|key path' IH]; intros source d1 d2 Hmiss.
  - reflexivity.
  - simpl in Hmiss. simpl.
    destruct (truthy source) eqn:Htruthy; simpl in *; [|reflexivity].
    destruct source as [| b | n | s | l | d]; try reflexivity.
    + simpl in *. destruct (substring_of key s); [reflexivity | discriminate].
    + simpl in *. destruct (existsb _ l); [reflexivity | discriminate].
    + simpl. rewrite key_in_keys.
      destruct (dict_get key d) as [result|]; simpl; [|discriminate].
      destruct path'; [reflexivity | apply IH, Hmiss].
Qed.

(** The repository's tests of [navigate_hash]. *)
Example test_one_level :
  navigate_hash (VDict [("key", VStr "value")]) ["key"] VNone
  = Returns (VStr "value").
Proof. reflexivity. Qed.

Example test_multilevel :
  navigate_hash (VDict [("key", VDict [("key2", VStr "value")])])
    ["key"; "key2"] VNone
  = Returns (VStr "value").
Proof. reflexivity. Qed.

Example test_default :
  navigate_hash (VDict [("key", VStr "value")]) ["key"; "key2"]
    (VStr "not found")
  = Returns (VStr "not found").
Proof. reflexivity. Qed.

(** C9, the claim as it stands fails: the default comes back from a path
    that runs into a text, with no mapping that lacks a key (the input of
    the repository's [test_default]). *)
Lemma navigate_hash_default_not_only_mappings :
  ~ (forall source path d1 d2,
        navigate_hash source path d1 <> navigate_hash source path d2 ->
        missing_in_mapping source path = true).
Proof.
  intros claim.
  specialize (claim (VDict [("key", VStr "value")]) ["key"; "key2"]
                (VStr "not found") VNone).
  cbv in claim. discriminate claim. intros H. discriminate H.
Qed.

(** C9 (amended): [navigate_hash] returns [None], not the default, whenever
    the source is falsy, for every path and default; it returns the default
    when a key of the path is missing from a non-empty container on the way
    (a mapping without the key, a list or a text that does not contain it),
    and only then does its result depend on the default. *)
Theorem navigate_hash_default (source : value) (path : list string)
    (default : value) :
  (truthy source = false -> navigate_hash source path default = Returns VNone)
  /\ (missing_in_container source path = true ->
      navigate_hash source path default = Returns default)
  /\ (missing_in_container source path = false ->
      forall other, navigate_hash source path other
                    = navigate_hash source path default).
Proof.
  split; [apply navigate_hash_falsy|].
  split; [apply navigate_hash_missing|].
  intros Hfound other. apply navigate_hash_found, Hfound.
Qed.

Lemma navigate_hash_default_witness :
  navigate_hash (VDict []) ["meta"; "pagination"] (VStr "d") = Returns VNone
  /\ navigate_hash (VDict [("key", VStr "value")]) ["key"; "key2"] (VStr "d")
     = Returns (VStr "d")
  /\ navigate_hash (VDict [("key", VStr "value")]) ["key"] (VInt 0)
     = navigate_hash (VDict [("key", VStr "value")]) ["key"] (VStr "d").
Proof.
  split; [|split].
  - exact (proj1 (navigate_hash_default (VDict []) ["meta"; "pagination"]
                    (VStr "d")) eq_refl).
  - exact (proj1 (proj2 (navigate_hash_default (VDict [("key", VStr "value")])
                           ["key"; "key2"] (VStr "d"))) eq_refl).
  - exact (proj2 (proj2 (navigate_hash_default (VDict [("key", VStr "value")])
                           ["key"] (VStr "d"))) eq_refl (VInt 0)).
Defined.

(* ================================================================== *)
(** * Properties of the difference engine *)

Lemma for_each_Forall2 {A B : Type} (f : A -> outcome B) (items : list A) :
  forall results,
    for_each f items = Returns results <->
    Forall2 (fun x y => f x = Returns y) items results.
Proof.
  induction items as [|x items IH]; intros results; simpl.
  - split.
    + intros H. injection H as <-. constructor.
    + intros H. inversion H. reflexivity.
  - split.
    + intros H. destruct (f x) as [y| | |] eqn:Hx; try discriminate.
      simpl in H.
      destruct (for_each f items) as [ys| | |] eqn:Hrest; try discriminate.
      simpl in H. injection H as <-.
      constructor; [exact Hx | apply IH; reflexivity].
    + intros H. inversion H as [|x' y items' ys Hx Hrest]; subst.
      rewrite Hx. simpl. apply IH in Hrest. rewrite Hrest. reflexivity.
Qed.

Lemma for_each_outcome {A B : Type} (f : A -> outcome B) (items : list A) :
  Forall (fun x => returns (f x) \/ f x = Raises UnicodeError) items ->
  returns (for_each f items) \/ for_each f items = Raises UnicodeError.
Proof.
  induction 1 as [|x items Hx _ IH]; simpl.
  - left. exact I.
  - destruct Hx as [Hx | Hx].
    + destruct (f x); try contradiction. simpl.
      destruct IH as [IH | IH].
      * destruct (for_each f items); try contradiction. left. exact I.
      * rewrite IH. right. reflexivity.
    + rewrite Hx. right. reflexivity.
Qed.

Lemma filter_none {A : Type} (f : A -> bool) (l : list A) :
  (forall a, In a l -> f a = false) -> filter f l = [].
Proof.
  induction l as [|x l IH]; intros H; simpl; [reflexivity|].
  rewrite (H x (or_introl eq_refl)). apply IH.
  intros a Ha. apply H. now right.
Qed.

Lemma existsb_ext {A : Type} (f g : A -> bool) (l : list A) :
  (forall a, f a = g a) -> existsb f l = existsb g l.
Proof.
  intros H. induction l as [|x l IH]; simpl; [reflexivity|].
  rewrite H, IH. reflexivity.
Qed.


Lemma height_list_le (l : list value) (x : value) :
  In x l -> height x < height (VList l).
Proof.
  simpl. induction l as [|y l IH]; intros Hin; [contradiction|].
  simpl. destruct Hin as [-> | Hin]; [lia|].
  specialize (IH Hin). lia.
Qed.

Lemma height_dict_le (d : dict) (k : string) (x : value) :
  In (k, x) d -> height x < height (VDict d).
Proof.
  simpl. induction d as [|[k' y] d IH]; intros Hin; [contradiction|].
  simpl. destruct Hin as [Heq | Hin].
  - injection Heq as -> ->. lia.
  - specialize (IH Hin). lia.
Qed.

Lemma dict_get_In (key : string) (d : dict) (v : value) :
  dict_get key d = Some v -> In (key, v) d.
Proof.
  induction d as [|[k w] d IH]; simpl; [discriminate|].
  destruct (k =? key) eqn:Hk.
  - intros H. injection H as ->. apply String.eqb_eq in Hk as ->. now left.
  - intros H. right. apply IH, H.
Qed.

Lemma dict_get_keys (key : string) (d : dict) :
  In key (keys d) -> exists v, dict_get key d = Some v.
Proof.
  induction d as [|[k w] d IH]; simpl; [contradiction|].
  intros [-> | Hin].
  - rewrite String.eqb_refl. eauto.
  - destruct (k =? key); [eauto | apply IH, Hin].
Qed.

Section DifferenceEngine.

Variable unicode_fails : value -> bool.

Lemma to_text_outcome (obj : value) :
  returns (to_text unicode_fails obj)
  \/ to_text unicode_fails obj = Raises UnicodeError.
Proof.
  unfold to_text. destruct (unicode_fails obj); [right | left]; easy.
Qed.

(** *** Normalization *)

Lemma convert_list (l : list value) (v : value) :
  _convert_value unicode_fails (VList l) = Returns v <->
  exists l', v = VList l'
             /\ Forall2 (fun x y => _convert_value unicode_fails x = Returns y)
                  l l'.
Proof.
  simpl. split.
  - intros H.
    destruct (for_each (_convert_value unicode_fails) l) as [l'| | |] eqn:Hl;
      try discriminate.
    simpl in H. injection H as <-. exists l'. split; [reflexivity|].
    apply for_each_Forall2, Hl.
  - intros (l' & -> & Hall). apply for_each_Forall2 in Hall.
    rewrite Hall. reflexivity.
Qed.

Lemma convert_dict (d : dict) (v : value) :
  _convert_value unicode_fails (VDict d) = Returns v ->
  exists d', v = VDict d'
             /\ Forall2 (fun kv kv' =>
                           fst kv' = fst kv
                           /\ _convert_value unicode_fails (snd kv)
                              = Returns (snd kv')) d d'.
Proof.
  simpl. intros H.
  destruct (for_each _ d) as [d'| | |] eqn:Hd; try discriminate.
  simpl in H. injection H as <-. exists d'. split; [reflexivity|].
  apply for_each_Forall2 in Hd.
  induction Hd as [|kv kv' d d' Hkv _ IH]; constructor; [|exact IH].
  destruct (_convert_value unicode_fails (snd kv)) as [c| | |];
    try discriminate.
  simpl in Hkv. injection Hkv as <-. simpl. split; reflexivity.
Qed.

Lemma convert_outcome (v : value) :
  returns (_convert_value unicode_fails v)
  \/ _convert_value unicode_fails v = Raises UnicodeError.
Proof.
  induction v as [| b | n | s | l IH | d IH] using value_induction;
    try (simpl; unfold to_text; destruct (unicode_fails _); simpl;
         [right | left]; easy).
  - simpl. destruct (for_each_outcome (_convert_value unicode_fails) l IH) as [H|H].
    + destruct (for_each _ l); try contradiction. left. exact I.
    + rewrite H. right. reflexivity.
  - simpl.
    assert (H : Forall (fun kv =>
                returns (c <- _convert_value unicode_fails (snd kv) ;;
                         Returns (fst kv, c))
                \/ (c <- _convert_value unicode_fails (snd kv) ;;
                    Returns (fst kv, c)) = Raises UnicodeError) d).
    { eapply Forall_impl; [|exact IH]. intros kv [Hkv | Hkv].
      - destruct (_convert_value unicode_fails (snd kv)); try contradiction.
        left. exact I.
      - rewrite Hkv. right. reflexivity. }
    destruct (for_each_outcome _ d H) as [H'|H'].
    + destruct (for_each _ d); try contradiction. left. exact I.
    + rewrite H'. right. reflexivity.
Qed.

Lemma convert_iterable (v v' : value) :
  _convert_value unicode_fails v = Returns v' ->
  exists items, py_iter v' = Returns items.
Proof.
  destruct v as [| b | n | s | l | d]; intros H;
    try (simpl in H; destruct (to_text unicode_fails _); try discriminate;
         simpl in H; injection H as <-; simpl; eauto; fail).
  - apply convert_list in H as (l' & -> & _). simpl. eauto.
  - apply convert_dict in H as (d' & -> & _). simpl. eauto.
Qed.

Lemma convert_height (v : value) :
  forall v', _convert_value unicode_fails v = Returns v' ->
             height v' = height v.
Proof.
  induction v as [| b | n | s | l IH | d IH] using value_induction;
    intros v' H;
    try (simpl in H; destruct (to_text unicode_fails _); try discriminate;
         simpl in H; injection H as <-; reflexivity).
  - apply convert_list in H as (l' & -> & Hall). simpl. f_equal.
    induction Hall as [|x y l l' Hxy _ IHall]; [reflexivity|].
    inversion IH as [|? ? Hx Hl]; subst. simpl.
    rewrite (Hx _ Hxy), (IHall Hl). reflexivity.
  - apply convert_dict in H as (d' & -> & Hall). simpl. f_equal.
    induction Hall as [|kv kv' d d' [_ Hkv] _ IHall]; [reflexivity|].
    inversion IH as [|? ? Hx Hd]; subst. simpl.
    rewrite (Hx _ Hkv), (IHall Hd). reflexivity.
Qed.

Lemma convert_shape (v : value) :
  forall s v', has_shape s v = true ->
               _convert_value unicode_fails v = Returns v' ->
               has_shape s v' = true.
Proof.
  induction v as [| b | n | t | l IH | d IH] using value_induction;
    intros s v' Hs H;
    try (simpl in H; destruct (to_text unicode_fails _); try discriminate;
         simpl in H; injection H as <-; destruct s; simpl in *;
         congruence).
  - apply convert_list in H as (l' & -> & Hall).
    destruct s as [| elements | fields]; try discriminate. simpl in *.
    induction Hall as [|x y l l' Hxy _ IHall]; [reflexivity|].
    inversion IH as [|? ? Hx Hl]; subst. simpl in *.
    apply andb_true_iff in Hs as [Hs1 Hs2].
    rewrite (Hx _ _ Hs1 Hxy), (IHall Hl Hs2). reflexivity.
  - apply convert_dict in H as (d' & -> & Hall).
    destruct s as [| elements | fields]; try discriminate. simpl in *.
    induction Hall as [|kv kv' d d' [Hk Hkv] _ IHall]; [reflexivity|].
    inversion IH as [|? ? Hx Hd]; subst. simpl in *.
    apply andb_true_iff in Hs as [Hs1 Hs2].
    rewrite Hk. destruct (field (fst kv) fields) as [s'|]; try discriminate.
    rewrite (Hx _ _ Hs1 Hkv), (IHall Hd Hs2). reflexivity.
Qed.

(** *** The loops *)

Section LoopLemmas.

Variable compare : value -> value -> outcome value.

Lemma find_item_returns (a : value) (items : list value) :
  forall found,
    Forall (fun b => returns (compare a b)) items ->
    find_item compare a items found
    = Returns (found || existsb (item_matches compare a) items).
Proof.
  induction items as [|b items IH]; intros found Hall; simpl.
  - rewrite orb_false_r. reflexivity.
  - inversion Hall as [|? ? Hb Hrest]; subst.
    unfold item_matches at 1, empty.
    destruct (compare a b) as [diff| | |]; try contradiction. simpl.
    rewrite (IH _ Hrest). f_equal.
    destruct (truthy diff), found; reflexivity.
Qed.

Lemma find_item_inv (a : value) (items : list value) :
  forall found r,
    find_item compare a items found = Returns r ->
    Forall (fun b => returns (compare a b)) items.
Proof.
  induction items as [|b items IH]; intros found r H; simpl in H.
  - constructor.
  - destruct (compare a b) as [diff| | |] eqn:Hb; try discriminate.
    simpl in H. constructor; [rewrite Hb; exact I | eapply IH, H].
Qed.

Lemma find_item_outcome (a : value) (items : list value) :
  forall found,
    Forall (fun b => returns_or_AttributeError (compare a b)) items ->
    returns_or_AttributeError (find_item compare a items found).
Proof.
  induction items as [|b items IH]; intros found Hall; simpl.
  - exact I.
  - inversion Hall as [|? ? Hb Hrest]; subst.
    destruct (compare a b) as [diff|[]| |]; try contradiction; simpl.
    + apply IH, Hrest.
    + exact I.
Qed.

Lemma each_req_item_returns (resp_items : list value) (new_resp_list : value)
    (req_items : list value) :
  py_iter new_resp_list = Returns resp_items ->
  forall difference,
    Forall (fun a => Forall (fun b => returns (compare a b)) resp_items)
      req_items ->
    each_req_item compare req_items new_resp_list difference
    = Returns (difference
               ++ filter (fun a =>
                            negb (existsb (item_matches compare a) resp_items)
                            && truthy a) req_items).
Proof.
  intros Hiter.
  induction req_items as [|a req_items IH]; intros difference Hall; simpl.
  - rewrite app_nil_r. reflexivity.
  - inversion Hall as [|? ? Ha Hrest]; subst.
    rewrite Hiter. simpl. rewrite (find_item_returns a resp_items false Ha). simpl.
    rewrite (IH _ Hrest).
    destruct (negb (existsb (item_matches compare a) resp_items) && truthy a).
    + rewrite <- app_assoc. reflexivity.
    + reflexivity.
Qed.

Lemma each_req_item_inv (resp_items : list value) (new_resp_list : value)
    (req_items : list value) :
  py_iter new_resp_list = Returns resp_items ->
  forall difference r,
    each_req_item compare req_items new_resp_list difference = Returns r ->
    Forall (fun a => Forall (fun b => returns (compare a b)) resp_items)
      req_items.
Proof.
  intros Hiter.
  induction req_items as [|a req_items IH]; intros difference r H;
    simpl in H.
  - constructor.
  - rewrite Hiter in H. simpl in H.
    destruct (find_item compare a resp_items false) as [found| | |] eqn:Hf;
      try discriminate.
    simpl in H. constructor; [eapply find_item_inv, Hf | eapply IH, H].
Qed.

Lemma each_req_item_outcome (resp_items : list value)
    (new_resp_list : value) (req_items : list value) :
  py_iter new_resp_list = Returns resp_items ->
  forall difference,
    Forall (fun a =>
              Forall (fun b => returns_or_AttributeError (compare a b))
                resp_items) req_items ->
    returns_or_AttributeError
      (each_req_item compare req_items new_resp_list difference).
Proof.
  intros Hiter.
  induction req_items as [|a req_items IH]; intros difference Hall; simpl.
  - exact I.
  - inversion Hall as [|? ? Ha Hrest]; subst.
    rewrite Hiter. simpl.
    pose proof (find_item_outcome a resp_items false Ha) as Hf.
    destruct (find_item compare a resp_items false) as [found|[]| |];
      try contradiction; simpl.
    + apply IH, Hrest.
    + exact I.
Qed.

Lemma each_key_not_a_mapping (req_keys : list string) (req_dict : dict)
    (resp_dict : value) (difference : dict) :
  (forall d, resp_dict <> VDict d) ->
  each_key compare req_keys req_dict resp_dict difference
  = match req_keys with
    | [] => Returns difference
    | _ :: _ => Raises AttributeError
    end.
Proof.
  intros Hnot. destruct req_keys as [|key rest]; [reflexivity|].
  simpl. destruct resp_dict; try reflexivity.
  exfalso. eapply Hnot. reflexivity.
Qed.

Lemma each_key_outcome (req_dict : dict) (resp_dict : value)
    (req_keys : list string) :
  forall difference,
    Forall (fun key => forall b,
                returns_or_AttributeError (compare (value_of req_dict key) b))
      req_keys ->
    returns_or_AttributeError
      (each_key compare req_keys req_dict resp_dict difference).
Proof.
  induction req_keys as [|key rest IH]; intros difference Hall; simpl.
  - exact I.
  - inversion Hall as [|? ? Hkey Hrest]; subst.
    destruct resp_dict as [| | | | |rd]; try exact I. simpl.
    fold (value_of rd key). fold (value_of req_dict key).
    destruct (is_none (value_of rd key)); simpl; [apply IH, Hrest|].
    specialize (Hkey (value_of rd key)).
    destruct (compare (value_of req_dict key) (value_of rd key)) as [diff|[]| |];
      try contradiction; simpl.
    + apply IH, Hrest.
    + exact I.
Qed.

Lemma each_key_returns (req_dict rd : dict) (req_keys : list string) :
  forall difference,
    Forall (fun key => is_none (value_of rd key) = false ->
                       returns (compare (value_of req_dict key) (value_of rd key)))
      req_keys ->
    returns (each_key compare req_keys req_dict (VDict rd) difference).
Proof.
  induction req_keys as [|key rest IH]; intros difference Hall; simpl.
  - exact I.
  - inversion Hall as [|? ? Hkey Hrest]; subst.
    fold (value_of rd key). fold (value_of req_dict key).
    destruct (is_none (value_of rd key)); simpl; [apply IH, Hrest|].
    specialize (Hkey eq_refl).
    destruct (compare (value_of req_dict key) (value_of rd key)) as [diff| | |];
      try contradiction; simpl.
    apply IH, Hrest.
Qed.

Lemma each_key_unchanged (req_dict rd : dict) (req_keys : list string) :
  forall difference out,
    each_key compare req_keys req_dict (VDict rd) difference = Returns out ->
    Forall (fun key => forall diff,
                compare (value_of req_dict key) (value_of rd key) = Returns diff ->
                truthy diff = false) req_keys ->
    out = difference.
Proof.
  induction req_keys as [|key rest IH]; intros difference out H Hall;
    simpl in H.
  - injection H as <-. reflexivity.
  - inversion Hall as [|? ? Hkey Hrest]; subst.
    fold (value_of rd key) in H. fold (value_of req_dict key) in H.
    destruct (is_none (value_of rd key)); simpl in H; [eapply IH; eauto|].
    destruct (compare (value_of req_dict key) (value_of rd key)) as [diff| | |] eqn:Hc;
      try discriminate.
    simpl in H. rewrite (Hkey diff eq_refl) in H. eapply IH; eauto.
Qed.

End LoopLemmas.

(** *** Termination and exceptions *)

Lemma converted_item (l l' : list value) (a : value) :
  Forall2 (fun x y => _convert_value unicode_fails x = Returns y) l l' ->
  In a l' ->
  exists x, In x l /\ _convert_value unicode_fails x = Returns a.
Proof.
  induction 1 as [|x y l l' Hxy _ IH]; intros Hin; [contradiction|].
  destruct Hin as [<- | Hin].
  - exists x. split; [now left | exact Hxy].
  - destruct (IH Hin) as (x' & Hx' & Hc). exists x'. split; [now right | exact Hc].
Qed.

Lemma converted_item_height (l l' : list value) (a : value) :
  Forall2 (fun x y => _convert_value unicode_fails x = Returns y) l l' ->
  In a l' -> height a < height (VList l).
Proof.
  intros Hall Hin. destruct (converted_item l l' a Hall Hin) as (x & Hx & Hc).
  rewrite (convert_height x a Hc). apply height_list_le, Hx.
Qed.

Lemma value_of_height (d : dict) (key : string) :
  In key (keys d) -> height (value_of d key) < height (VDict d).
Proof.
  intros Hin. destruct (dict_get_keys key d Hin) as [v Hv].
  unfold value_of. rewrite Hv. eapply height_dict_le, dict_get_In, Hv.
Qed.

Lemma compare_boolean_returns (b : bool) (resp_value : value) :
  returns (_compare_boolean unicode_fails b resp_value).
Proof.
  unfold _compare_boolean, to_text.
  destruct (unicode_fails resp_value); simpl; [exact I|].
  destruct (Bool.eqb _ _); exact I.
Qed.

Lemma compare_scalar_returns (req_value resp_value : value) :
  returns
    (except_UnicodeError
       (a <- to_text unicode_fails req_value ;;
        b <- to_text unicode_fails resp_value ;;
        if negb (a =? b) then Returns req_value else Returns VNone)
       (Returns VNone)).
Proof.
  unfold to_text.
  destruct (unicode_fails req_value); simpl; [exact I|].
  destruct (unicode_fails resp_value); simpl; [exact I|].
  destruct (negb _); exact I.
Qed.

Lemma except_outcome (o : outcome value) :
  returns_or_AttributeError o \/ o = Raises UnicodeError ->
  returns_or_AttributeError (except_UnicodeError o (Returns VNone)).
Proof.
  intros [H | ->]; [|exact I].
  destruct o as [d|[]| |]; try contradiction; exact I.
Qed.

Lemma returns_weaken {A : Type} (o : outcome A) :
  returns o -> returns_or_AttributeError o.
Proof. destruct o; simpl; tauto. Qed.

Lemma compare_lists_outcome (compare : value -> value -> outcome value)
    (l : list value) (resp_value : value) :
  (forall a b, height a < height (VList l) ->
               returns_or_AttributeError (compare a b)) ->
  returns_or_AttributeError (_compare_lists unicode_fails compare (VList l) resp_value)
  \/ _compare_lists unicode_fails compare (VList l) resp_value
     = Raises UnicodeError.
Proof.
  intros Hcmp. unfold _compare_lists.
  destruct (convert_outcome (VList l)) as [Hreq | Hreq];
    [|rewrite Hreq; right; reflexivity].
  destruct (_convert_value unicode_fails (VList l)) as [new_req| | |] eqn:Hl;
    try contradiction.
  apply convert_list in Hl as (l' & -> & Hall). simpl.
  destruct (convert_outcome resp_value) as [Hresp | Hresp];
    [|rewrite Hresp; right; reflexivity].
  destruct (_convert_value unicode_fails resp_value) as [new_resp| | |] eqn:Hr;
    try contradiction.
  simpl. destruct (convert_iterable _ _ Hr) as [resp_items Hiter].
  left.
  assert (Hloop : returns_or_AttributeError
                    (each_req_item compare l' new_resp [])).
  { apply (each_req_item_outcome compare resp_items new_resp l' Hiter).
    apply Forall_forall. intros a Ha. apply Forall_forall. intros b _.
    apply Hcmp. eapply converted_item_height; eauto. }
  destruct (each_req_item compare l' new_resp []) as [diff|[]| |];
    try contradiction; exact I.
Qed.

Lemma compare_dicts_outcome (compare : value -> value -> outcome value)
    (d : dict) (resp_value : value) :
  (forall a b, height a < height (VDict d) ->
               returns_or_AttributeError (compare a b)) ->
  returns_or_AttributeError (_compare_dicts compare d resp_value).
Proof.
  intros Hcmp. unfold _compare_dicts.
  assert (Hloop : returns_or_AttributeError
                    (each_key compare (keys d) d resp_value [])).
  { apply each_key_outcome. apply Forall_forall. intros key Hkey b.
    apply Hcmp, value_of_height, Hkey. }
  destruct (each_key compare (keys d) d resp_value []) as [diff|[]| |];
    try contradiction; exact I.
Qed.

(** With one unit of fuel per level of the request the comparator ends, and
    the only exception that leaves it is AttributeError. *)
Lemma compare_value_outcome (fuel : nat) :
  forall req_value resp_value,
    height req_value < fuel ->
    returns_or_AttributeError
      (_compare_value unicode_fails fuel req_value resp_value).
Proof.
  induction fuel as [|fuel IH]; intros req_value resp_value Hfuel; [lia|].
  simpl. destruct (is_none resp_value); [exact I|].
  destruct req_value as [| b | n | s | l | d].
  - apply returns_weaken, compare_scalar_returns.
  - apply except_outcome. left. apply returns_weaken, compare_boolean_returns.
  - apply returns_weaken, compare_scalar_returns.
  - apply returns_weaken, compare_scalar_returns.
  - apply except_outcome, compare_lists_outcome.
    intros a b Ha. apply IH. lia.
  - apply except_outcome. left. apply compare_dicts_outcome.
    intros a b Ha. apply IH. lia.
Qed.

(** *** More fuel changes nothing *)

Section Refinement.

Variables compare1 compare2 : value -> value -> outcome value.

Hypothesis refines :
  forall a b, compare1 a b <> Timeout -> compare2 a b = compare1 a b.

Lemma find_item_refines (a : value) (items : list value) :
  forall found,
    find_item compare1 a items found <> Timeout ->
    find_item compare2 a items found = find_item compare1 a items found.
Proof.
  induction items as [|b items IH]; intros found H; simpl in *; [reflexivity|].
  assert (Hb : compare1 a b <> Timeout).
  { intros Hb. rewrite Hb in H. apply H. reflexivity. }
  rewrite (refines a b Hb).
  destruct (compare1 a b) as [diff| | |]; simpl in *; try reflexivity.
  apply IH, H.
Qed.

Lemma each_req_item_refines (new_resp_list : value) (req_items : list value) :
  forall difference,
    each_req_item compare1 req_items new_resp_list difference <> Timeout ->
    each_req_item compare2 req_items new_resp_list difference
    = each_req_item compare1 req_items new_resp_list difference.
Proof.
  induction req_items as [|a req_items IH]; intros difference H; simpl in *;
    [reflexivity|].
  destruct (py_iter new_resp_list) as [resp_items| | |]; simpl in *;
    try reflexivity.
  assert (Hf : find_item compare1 a resp_items false <> Timeout).
  { intros Hf. rewrite Hf in H. apply H. reflexivity. }
  rewrite (find_item_refines a resp_items false Hf).
  destruct (find_item compare1 a resp_items false) as [found| | |];
    simpl in *; try reflexivity.
  apply IH, H.
Qed.

Lemma each_key_refines (req_dict : dict) (resp_dict : value)
    (req_keys : list string) :
  forall difference,
    each_key compare1 req_keys req_dict resp_dict difference <> Timeout ->
    each_key compare2 req_keys req_dict resp_dict difference
    = each_key compare1 req_keys req_dict resp_dict difference.
Proof.
  induction req_keys as [|key rest IH]; intros difference H; simpl in *;
    [reflexivity|].
  destruct (py_get resp_dict key) as [resp_value| | |]; simpl in *;
    try reflexivity.
  destruct (is_none resp_value); simpl in *; [apply IH, H|].
  match type of H with
  | context [compare1 ?x ?y] =>
      assert (Hc : compare1 x y <> Timeout);
      [ intros Hc; rewrite Hc in H; apply H; reflexivity
      | rewrite (refines x y Hc);
        destruct (compare1 x y) as [diff| | |]; simpl in *; try reflexivity ]
  end.
  apply IH, H.
Qed.

Lemma compare_lists_refines (req_list resp_list : value) :
  _compare_lists unicode_fails compare1 req_list resp_list <> Timeout ->
  _compare_lists unicode_fails compare2 req_list resp_list
  = _compare_lists unicode_fails compare1 req_list resp_list.
Proof.
  unfold _compare_lists. intros H.
  destruct (_convert_value unicode_fails req_list) as [new_req| | |];
    simpl in *; try reflexivity.
  destruct (_convert_value unicode_fails resp_list) as [new_resp| | |];
    simpl in *; try reflexivity.
  destruct (py_iter new_req) as [req_items| | |]; simpl in *; try reflexivity.
  rewrite each_req_item_refines; [reflexivity|].
  intros Hloop. rewrite Hloop in H. apply H. reflexivity.
Qed.

Lemma compare_dicts_refines (req_dict : dict) (resp_dict : value) :
  _compare_dicts compare1 req_dict resp_dict <> Timeout ->
  _compare_dicts compare2 req_dict resp_dict
  = _compare_dicts compare1 req_dict resp_dict.
Proof.
  unfold _compare_dicts. intros H.
  rewrite each_key_refines; [reflexivity|].
  intros Hloop. rewrite Hloop in H. apply H. reflexivity.
Qed.

End Refinement.

Lemma except_not_timeout (o : outcome value) :
  except_UnicodeError o (Returns VNone) <> Timeout -> o <> Timeout.
Proof. intros H ->. apply H. reflexivity. Qed.

Lemma compare_value_more_fuel (fuel : nat) :
  forall req_value resp_value more,
    _compare_value unicode_fails fuel req_value resp_value <> Timeout ->
    fuel <= more ->
    _compare_value unicode_fails more req_value resp_value
    = _compare_value unicode_fails fuel req_value resp_value.
Proof.
  induction fuel as [|fuel IH]; intros req_value resp_value more H Hle.
  - exfalso. apply H. reflexivity.
  - destruct more as [|more]; [lia|]. simpl in *.
    destruct (is_none resp_value); [reflexivity|].
    apply except_not_timeout in H.
    assert (Hrec : forall a b,
               _compare_value unicode_fails fuel a b <> Timeout ->
               _compare_value unicode_fails more a b
               = _compare_value unicode_fails fuel a b).
    { intros a b Hab. apply IH; [exact Hab | lia]. }
    destruct req_value as [| b | n | s | l | d]; try reflexivity.
    + rewrite (compare_lists_refines _ _ Hrec _ _ H). reflexivity.
    + rewrite (compare_dicts_refines _ _ Hrec _ _ H). reflexivity.
Qed.

Lemma compare_value_not_timeout (fuel : nat) (req_value resp_value : value) :
  height req_value < fuel ->
  _compare_value unicode_fails fuel req_value resp_value <> Timeout.
Proof.
  intros Hfuel H.
  pose proof (compare_value_outcome fuel req_value resp_value Hfuel) as Hok.
  rewrite H in Hok. exact Hok.
Qed.

(** Any fuel above the height of the request gives the outcome of
    [difference]. *)
Lemma compare_value_difference (fuel : nat) (req_value resp_value : value) :
  height req_value < fuel ->
  _compare_value unicode_fails fuel req_value resp_value
  = difference unicode_fails req_value resp_value.
Proof.
  intros Hfuel. unfold difference.
  apply compare_value_more_fuel; [|lia].
  apply compare_value_not_timeout. lia.
Qed.

(** *** Trees of one shape *)

Lemma shape_of_list (s : shape) (l : list value) :
  has_shape s (VList l) = true ->
  exists elements, s = SList elements
                   /\ forall x, In x l -> has_shape elements x = true.
Proof.
  destruct s as [| elements | fields]; simpl; try discriminate.
  intros H. exists elements. split; [reflexivity|].
  apply forallb_forall, H.
Qed.

Lemma shape_of_dict (s : shape) (d : dict) :
  has_shape s (VDict d) = true ->
  exists fields, s = SDict fields
                 /\ forall k v, In (k, v) d ->
                                exists s', field k fields = Some s'
                                           /\ has_shape s' v = true.
Proof.
  destruct s as [| elements | fields]; simpl; try discriminate.
  intros H. exists fields. split; [reflexivity|].
  intros k v Hin. rewrite forallb_forall in H. specialize (H _ Hin).
  simpl in H. destruct (field k fields) as [s'|]; [eauto | discriminate].
Qed.

Lemma list_of_shape (elements : shape) (v : value) :
  has_shape (SList elements) v = true -> exists l, v = VList l.
Proof. destruct v; simpl; try discriminate. eauto. Qed.

Lemma dict_of_shape (fields : list (string * shape)) (v : value) :
  has_shape (SDict fields) v = true -> exists d, v = VDict d.
Proof. destruct v; simpl; try discriminate. eauto. Qed.

Lemma value_of_shape (fields : list (string * shape)) (d : dict) (key : string) :
  has_shape (SDict fields) (VDict d) = true ->
  is_none (value_of d key) = false ->
  exists s', field key fields = Some s'
             /\ has_shape s' (value_of d key) = true.
Proof.
  intros Hs Hsome. unfold value_of in *.
  destruct (dict_get key d) as [v|] eqn:Hget; [|discriminate].
  destruct (shape_of_dict _ _ Hs) as (fields' & Heq & Hfields).
  injection Heq as <-. apply Hfields, dict_get_In, Hget.
Qed.

Lemma except_returns (o : outcome value) :
  returns o \/ o = Raises UnicodeError ->
  returns (except_UnicodeError o (Returns VNone)).
Proof.
  intros [H | ->]; [|exact I]. destruct o; try contradiction. exact I.
Qed.

(** On two trees of one shape the comparator returns. *)
Lemma compare_value_shaped (fuel : nat) :
  forall s req_value resp_value,
    height req_value < fuel ->
    has_shape s req_value = true ->
    has_shape s resp_value = true ->
    returns (_compare_value unicode_fails fuel req_value resp_value).
Proof.
  induction fuel as [|fuel IH]; intros s req_value resp_value Hfuel Hreq Hresp;
    [lia|].
  simpl. destruct (is_none resp_value) eqn:Hnone; [exact I|].
  destruct req_value as [| b | n | t | l | d].
  - apply compare_scalar_returns.
  - apply except_returns. left. apply compare_boolean_returns.
  - apply compare_scalar_returns.
  - apply compare_scalar_returns.
  - destruct (shape_of_list _ _ Hreq) as (elements & -> & Hl).
    apply except_returns. unfold _compare_lists.
    destruct (convert_outcome (VList l)) as [Hc | Hc];
      [|rewrite Hc; right; reflexivity].
    destruct (_convert_value unicode_fails (VList l)) as [new_req| | |] eqn:Hcl;
      try contradiction.
    pose proof (convert_shape _ _ _ Hreq Hcl) as Hreq'.
    apply convert_list in Hcl as (l' & -> & Hall). simpl.
    destruct (convert_outcome resp_value) as [Hc' | Hc'];
      [|rewrite Hc'; right; reflexivity].
    destruct (_convert_value unicode_fails resp_value) as [new_resp| | |] eqn:Hcr;
      try contradiction.
    pose proof (convert_shape _ _ _ Hresp Hcr) as Hresp'.
    destruct (list_of_shape _ _ Hresp') as [r' ->]. simpl.
    left.
    rewrite (each_req_item_returns _ r' (VList r') l' eq_refl); [exact I|].
    apply Forall_forall. intros a Ha. apply Forall_forall. intros b Hb.
    apply (IH elements).
    + pose proof (converted_item_height _ _ _ Hall Ha). lia.
    + simpl in Hreq'. rewrite forallb_forall in Hreq'. apply Hreq', Ha.
    + simpl in Hresp'. rewrite forallb_forall in Hresp'. apply Hresp', Hb.
  - destruct (shape_of_dict _ _ Hreq) as (fields & -> & Hd).
    destruct (dict_of_shape _ _ Hresp) as [rd ->].
    apply except_returns. left. unfold _compare_dicts.
    assert (Hloop : returns (each_key (_compare_value unicode_fails fuel)
                               (keys d) d (VDict rd) [])).
    { apply each_key_returns. apply Forall_forall. intros key Hkey Hsome.
      destruct (value_of_shape _ _ _ Hresp Hsome) as (s' & Hf & Hs').
      apply (IH s'); [| |exact Hs'].
      - pose proof (value_of_height d key Hkey). lia.
      - destruct (dict_get_keys key d Hkey) as [v Hv].
        unfold value_of. rewrite Hv.
        destruct (Hd _ _ (dict_get_In _ _ _ Hv)) as (s'' & Hf' & Hs'').
        congruence. }
    destruct (each_key _ _ d (VDict rd) []); try contradiction. exact I.
Qed.

(** *** A tree against itself *)

Lemma except_returns_inv (o : outcome value) (diff : value) :
  except_UnicodeError o (Returns VNone) = Returns diff ->
  o = Returns diff \/ diff = VNone.
Proof.
  destruct o as [d|[]| |]; simpl; intros H; try discriminate;
    injection H as <-; auto.
Qed.

Lemma compare_value_same (fuel : nat) :
  forall tree diff,
    _compare_value unicode_fails fuel tree tree = Returns diff ->
    truthy diff = false.
Proof.
  induction fuel as [|fuel IH]; intros tree diff H; [discriminate|].
  simpl in H. destruct (is_none tree) eqn:Hnone.
  { injection H as <-. reflexivity. }
  apply except_returns_inv in H as [H | ->]; [|reflexivity].
  destruct tree as [| b | n | t | l | d].
  - discriminate.
  - unfold _compare_boolean, to_text in H.
    destruct (unicode_fails (VBool b)); simpl in H.
    + injection H as <-. reflexivity.
    + destruct b; simpl in H; injection H as <-; reflexivity.
  - unfold to_text in H. destruct (unicode_fails (VInt n)); [discriminate|].
    simpl in H. rewrite String.eqb_refl in H. injection H as <-. reflexivity.
  - unfold to_text in H. destruct (unicode_fails (VStr t)); [discriminate|].
    simpl in H. rewrite String.eqb_refl in H. injection H as <-. reflexivity.
  - unfold _compare_lists in H.
    destruct (_convert_value unicode_fails (VList l)) as [new_list| | |] eqn:Hc;
      try discriminate.
    apply convert_list in Hc as (l' & -> & Hall). simpl in H.
    destruct (each_req_item _ l' (VList l') []) as [out| | |] eqn:Hloop;
      try discriminate.
    injection H as <-.
    pose proof (each_req_item_inv _ l' (VList l') l' eq_refl _ _ Hloop) as Hret.
    rewrite (each_req_item_returns _ l' (VList l') l' eq_refl _ Hret) in Hloop.
    injection Hloop as <-. simpl.
    assert (Hnil : filter (fun a =>
                     negb (existsb (item_matches (_compare_value unicode_fails fuel) a) l')
                     && truthy a) l' = []).
    { apply filter_none. intros a Ha.
      assert (Hex : existsb (item_matches (_compare_value unicode_fails fuel) a) l'
                    = true).
      { apply existsb_exists. exists a. split; [exact Ha|].
        unfold item_matches, empty.
        rewrite Forall_forall in Hret. specialize (Hret a Ha).
        rewrite Forall_forall in Hret. specialize (Hret a Ha).
        destruct (_compare_value unicode_fails fuel a a) as [da| | |] eqn:Hda;
          try contradiction.
        rewrite (IH _ _ Hda). reflexivity. }
      rewrite Hex. reflexivity. }
    rewrite Hnil. reflexivity.
  - unfold _compare_dicts in H.
    destruct (each_key _ (keys d) d (VDict d) []) as [out| | |] eqn:Hloop;
      try discriminate.
    injection H as <-.
    rewrite (each_key_unchanged _ d d (keys d) [] out Hloop); [reflexivity|].
    apply Forall_forall. intros key _ diff Hdiff. eapply IH, Hdiff.
Qed.

(** *** The list rule *)

Lemma compare_value_list (fuel : nat) (l : list value) (resp_value : value) :
  is_none resp_value = false ->
  _compare_value unicode_fails (S fuel) (VList l) resp_value
  = except_UnicodeError
      (_compare_lists unicode_fails (_compare_value unicode_fails fuel)
         (VList l) resp_value)
      (Returns VNone).
Proof. intros H. simpl. rewrite H. reflexivity. Qed.

Lemma item_matches_difference (fuel : nat) (a b : value) :
  height a < fuel ->
  item_matches (_compare_value unicode_fails fuel) a b
  = matches unicode_fails a b.
Proof.
  intros Hfuel. unfold item_matches, matches.
  rewrite compare_value_difference by exact Hfuel. reflexivity.
Qed.

Lemma compare_lists_filter (l r l' r' : list value) :
  _convert_value unicode_fails (VList l) = Returns (VList l') ->
  _convert_value unicode_fails (VList r) = Returns (VList r') ->
  (forall a b, In a l' -> In b r' ->
               exists diff, difference unicode_fails a b = Returns diff) ->
  difference unicode_fails (VList l) (VList r)
  = Returns (VList (filter (unmatched unicode_fails r') l')).
Proof.
  intros Hl Hr Hret. unfold difference.
  rewrite compare_value_list by reflexivity.
  unfold _compare_lists. rewrite Hl, Hr.
  apply convert_list in Hl as (l0 & Heq & Hall). injection Heq as <-.
  cbn [bind py_iter].
  rewrite (each_req_item_returns _ r' (VList r') l' eq_refl).
  - cbn [bind except_UnicodeError app]. do 2 f_equal.
    apply filter_ext_in. intros a Ha. unfold unmatched. f_equal. f_equal.
    apply existsb_ext. intros b.
    apply item_matches_difference. eapply converted_item_height; eauto.
  - apply Forall_forall. intros a Ha. apply Forall_forall. intros b Hb.
    rewrite compare_value_difference
      by (eapply converted_item_height; eauto).
    destruct (Hret a b Ha Hb) as [diff ->]. exact I.
Qed.

End DifferenceEngine.

(* ------------------------------------------------------------------ *)
(** ** Reflexivity (C8) *)

(** C8, the claim as it stands fails: a list that holds a mapping and a
    text makes the comparison of the tree with itself raise AttributeError
    ([_compare_dicts] calls [.get] on the text). *)
Lemma difference_reflexive_mixed_list :
  ~ (forall tree, exists diff,
        difference never_fails tree tree = Returns diff /\ empty diff = true).
Proof.
  intros claim.
  destruct (claim (VDict [("foo", VList [VDict [("a", VStr "x")]; VStr "s"])]))
    as (diff & H & _).
  vm_compute in H. discriminate H.
Qed.

(** C8 (amended): for every resource tree [R], [difference(R, R)] is empty
    whenever it returns, and the only other outcome is an AttributeError;
    it returns, and is empty, for every tree whose lists are homogeneous
    (every tree that has a shape). *)
Theorem difference_reflexive (unicode_fails : value -> bool) (tree : value) :
  (forall diff, difference unicode_fails tree tree = Returns diff ->
                empty diff = true)
  /\ ((exists diff, difference unicode_fails tree tree = Returns diff)
      \/ difference unicode_fails tree tree = Raises AttributeError)
  /\ (forall s, has_shape s tree = true ->
                exists diff, difference unicode_fails tree tree = Returns diff
                             /\ empty diff = true).
Proof.
  assert (Hempty : forall diff,
             difference unicode_fails tree tree = Returns diff ->
             empty diff = true).
  { intros diff H. unfold empty.
    rewrite (compare_value_same unicode_fails _ _ _ H). reflexivity. }
  split; [exact Hempty|]. split.
  - pose proof (compare_value_outcome unicode_fails (S (height tree)) tree tree
                  (Nat.lt_succ_diag_r _)) as H.
    unfold difference.
    destruct (_compare_value unicode_fails (S (height tree)) tree tree)
      as [diff|[]| |]; try contradiction; eauto.
  - intros s Hs.
    pose proof (compare_value_shaped unicode_fails (S (height tree)) s tree tree
                  (Nat.lt_succ_diag_r _) Hs Hs) as H.
    fold (difference unicode_fails tree tree) in H.
    destruct (difference unicode_fails tree tree) as [diff| | |] eqn:Hd;
      try contradiction.
    exists diff. split; [reflexivity | apply Hempty; reflexivity].
Qed.

Lemma difference_reflexive_witness :
  exists diff,
    difference never_fails
      (VDict [("foo", VList [VDict [("test", VStr "value"); ("foo", VStr "bar")];
                             VDict [("different", VStr "dict")]])])
      (VDict [("foo", VList [VDict [("test", VStr "value"); ("foo", VStr "bar")];
                             VDict [("different", VStr "dict")]])])
    = Returns diff
    /\ empty diff = true.
Proof.
  apply (proj2 (proj2 (difference_reflexive never_fails _))
           (SDict [("foo", SList (SDict [("test", SScalar); ("foo", SScalar);
                                        ("different", SScalar)]))])).
  reflexivity.
Defined.

(* ------------------------------------------------------------------ *)
(** ** Totality (C7) *)




(* ------------------------------------------------------------------ *)
(** ** Lists (C5) *)





(** The examples of the specification. *)
Example scalar_diff :
  difference never_fails
    (VDict [("foo", VStr "bar"); ("test", VStr "original")])
    (VDict [("foo", VStr "bar"); ("test", VStr "different")])
  = Returns (VDict [("test", VStr "original")]).
Proof. reflexivity. Qed.

Example nested_diff :
  difference never_fails
    (VDict [("foo", VDict [("quiet", VDict [("tree", VStr "test")]);
                           ("bar", VStr "baz")]);
            ("test", VStr "original")])
    (VDict [("foo", VDict [("quiet", VDict [("tree", VStr "baz")]);
                           ("bar", VStr "hello")]);
            ("test", VStr "original")])
  = Returns (VDict [("foo", VDict [("quiet", VDict [("tree", VStr "test")]);
                                   ("bar", VStr "baz")])]).
Proof. reflexivity. Qed.

Example sequence_as_multiset_diff :
  difference never_fails
    (VDict [("foo", VList [VStr "baz"; VStr "bar"])])
    (VDict [("foo", VList [VStr "baz"; VStr "hello"])])
  = Returns (VDict [("foo", VList [VStr "bar"])]).
Proof. reflexivity. Qed.

Example sequence_of_maps_diff :
  difference never_fails
    (VDict [("foo", VList [VDict [("test", VStr "value"); ("foo", VStr "bar")];
                           VDict [("different", VStr "dict")]])])
    (VDict [("foo", VList [VDict [("test", VStr "value2");
                                  ("foo", VStr "bar2")]])])
  = Returns (VDict [("foo", VList [VDict [("test", VStr "value");
                                          ("foo", VStr "bar")]])]).
Proof. reflexivity. Qed.

Example list_elements_are_normalized :
  difference never_fails (VDict [("foo", VList [VInt 1])])
    (VDict [("foo", VList [VInt 2])])
  = Returns (VDict [("foo", VList [VStr "1"])]).
Proof. reflexivity. Qed.

(* ------------------------------------------------------------------ *)
(** ** A populated list against nothing (C2) *)

(** C2, the claim as it stands fails: against an empty actual mapping the
    key is absent from the actual side, and "a difference does not
    exist". *)
Lemma difference_against_empty_mapping :
  ~ (forall l, l <> [] ->
        difference never_fails (VDict [("foo", VList l)]) (VDict [])
        = Returns (VDict [("foo", VList l)])).
Proof.
  intros claim.
  assert (H : [VStr "baz"] <> []) by discriminate.
  specialize (claim [VStr "baz"] H).
  vm_compute in claim. discriminate claim.
Qed.

Lemma convert_texts (unicode_fails : value -> bool) (l : list value) :
  (forall s, unicode_fails (VStr s) = false) ->
  Forall (fun x => exists s, x = VStr s /\ s <> EmptyString) l ->
  _convert_value unicode_fails (VList l) = Returns (VList l).
Proof.
  intros Hok Hall. apply convert_list. exists l. split; [reflexivity|].
  induction Hall as [|x l (s & -> & _) _ IH]; constructor; [|exact IH].
  simpl. unfold to_text. rewrite Hok. reflexivity.
Qed.

Lemma filter_truthy_texts (l : list value) :
  Forall (fun x => exists s, x = VStr s /\ s <> EmptyString) l ->
  filter truthy l = l.
Proof.
  induction 1 as [|x l (s & -> & Hs) _ IH]; simpl; [reflexivity|].
  destruct (s =? EmptyString) eqn:Heq.
  - apply String.eqb_eq in Heq. contradiction.
  - simpl. rewrite IH. reflexivity.
Qed.

Lemma difference_list_against_empty (unicode_fails : value -> bool)
    (l l' : list value) :
  _convert_value unicode_fails (VList l) = Returns (VList l') ->
  difference unicode_fails (VList l) (VList []) = Returns (VList (filter truthy l')).
Proof.
  intros Hl.
  rewrite (compare_lists_filter unicode_fails l [] l' [] Hl eq_refl).
  - do 2 f_equal.
  - intros a b _ [].
Qed.

(** C2 (amended): for every non-empty list [l] of non-empty texts,
    [difference({"foo": l}, {"foo": []})] -- the populated desired list
    against an empty actual list under the same key -- reproduces the full
    desired content [{"foo": l}], while [difference({}, {"foo": l})] is
    empty; against an empty actual mapping [difference({"foo": l}, {})] is
    empty as well. *)
Theorem difference_populated_against_empty (unicode_fails : value -> bool)
    (l : list value) :
  (forall s, unicode_fails (VStr s) = false) ->
  l <> [] ->
  Forall (fun x => exists s, x = VStr s /\ s <> EmptyString) l ->
  difference unicode_fails (VDict [("foo", VList l)])
    (VDict [("foo", VList [])])
  = Returns (VDict [("foo", VList l)])
  /\ difference unicode_fails (VDict []) (VDict [("foo", VList l)])
     = Returns (VDict [])
  /\ difference unicode_fails (VDict [("foo", VList l)]) (VDict [])
     = Returns (VDict []).
Proof.
  intros Hok Hne Htexts. split; [|split; reflexivity].
  assert (Hinner : _compare_value unicode_fails
                     (height (VDict [("foo", VList l)])) (VList l) (VList [])
                   = Returns (VList l)).
  { rewrite compare_value_difference by (simpl; lia).
    rewrite (difference_list_against_empty unicode_fails l l
               (convert_texts unicode_fails l Hok Htexts)).
    rewrite (filter_truthy_texts l Htexts). reflexivity. }
  unfold difference.
  remember (height (VDict [("foo", VList l)])) as fuel eqn:Hfuel.
  simpl.
  unfold _compare_dicts. simpl.
  rewrite Hinner. simpl. destruct l; [contradiction | reflexivity].
Qed.

Lemma difference_populated_against_empty_witness :
  difference never_fails (VDict [("foo", VList [VStr "baz"; VStr "hello"])])
    (VDict [("foo", VList [])])
  = Returns (VDict [("foo", VList [VStr "baz"; VStr "hello"])])
  /\ difference never_fails (VDict [])
       (VDict [("foo", VList [VStr "baz"; VStr "hello"])])
     = Returns (VDict [])
  /\ difference never_fails (VDict [("foo", VList [VStr "baz"; VStr "hello"])])
       (VDict [])
     = Returns (VDict []).
Proof.
  apply (difference_populated_against_empty never_fails
           [VStr "baz"; VStr "hello"]).
  - reflexivity.
  - discriminate.
  - repeat constructor; eexists; (split; [reflexivity | discriminate]).
Defined.

(* ------------------------------------------------------------------ *)
Lemma dict_get_set_other (key k : string) (v : value) (d : dict) :
  k <> key -> dict_get k (dict_set key v d) = dict_get k d.
Proof.
  intros Hk. induction d as [|[k' w] d IH]; simpl.
  - destruct (key =? k) eqn:Heq; [|reflexivity].
    apply String.eqb_eq in Heq. congruence.
  - destruct (k' =? key) eqn:Hk'; simpl.
    + destruct (k' =? k) eqn:Heq; [|reflexivity].
      apply String.eqb_eq in Hk', Heq. congruence.
    + rewrite IH. reflexivity.
Qed.

Lemma dict_get_set (key : string) (v : value) (d : dict) :
  dict_get key (dict_set key v d) = Some v.
Proof.
  induction d as [|[k w] d IH]; simpl.
  - rewrite String.eqb_refl. reflexivity.
  - destruct (k =? key) eqn:Hk; simpl; rewrite Hk; [reflexivity | exact IH].
Qed.

Lemma difference_of_mapping (unicode_fails : value -> bool) (d : dict)
    (actual : value) :
  is_none actual = false ->
  difference unicode_fails (VDict d) actual
  = _compare_dicts (_compare_value unicode_fails (height (VDict d))) d actual.
Proof.
  intros Hnone. unfold difference. cbn [_compare_value]. rewrite Hnone.
  pose proof (compare_dicts_outcome
                (_compare_value unicode_fails (height (VDict d))) d actual)
    as Hout.
  destruct (_compare_dicts _ d actual) as [diff|[]| |] eqn:Hd;
    try reflexivity; exfalso; apply Hout;
    intros a b Ha; apply compare_value_outcome; exact Ha.
Qed.

(** ** Booleans (C6) *)







Section BooleanAtPath.

Variable compare : value -> value -> outcome value.



End BooleanAtPath.






Example boolean_coercion_diff :
  difference never_fails
    (VDict [("foo", VBool true); ("bar", VBool false);
            ("baz", VBool true); ("qux", VBool false)])
    (VDict [("foo", VBool true); ("bar", VBool false);
            ("baz", VBool false); ("qux", VBool true)])
  = Returns (VDict [("baz", VBool true); ("qux", VBool true)]).
Proof. reflexivity. Qed.

(* ================================================================== *)
(** * Properties of the paged collection walker *)

Lemma nth_error_update_nth {A : Type} (l : list A) :
  forall n a x,
    nth_error l n = Some x -> nth_error (update_nth n a l) n = Some a.
Proof.
  induction l as [|y l IH]; intros [|n] a x H; simpl in *;
    try discriminate; [reflexivity | eapply IH, H].
Qed.

Lemma nth_error_update_nth_other {A : Type} (l : list A) :
  forall n m a, n <> m -> nth_error (update_nth n a l) m = nth_error l m.
Proof.
  induction l as [|y l IH]; intros [|n] [|m] a H; simpl; try reflexivity.
  - contradiction.
  - apply IH. congruence.
Qed.

Lemma nth_error_fresh {A : Type} (l : list A) (a : A) :
  nth_error (l ++ [a]) (List.length l) = Some a.
Proof. induction l; simpl; [reflexivity | assumption]. Qed.

Lemma dict_set_twice (key : string) (v1 v2 : value) (d : dict) :
  dict_set key v2 (dict_set key v1 d) = dict_set key v2 d.
Proof.
  induction d as [|[k w] d IH]; simpl.
  - rewrite String.eqb_refl. reflexivity.
  - destruct (k =? key) eqn:Hk; simpl; rewrite Hk; [reflexivity|].
    rewrite IH. reflexivity.
Qed.

Lemma dict_set_nonempty (key : string) (v : value) (d : dict) :
  dict_set key v d <> [].
Proof. destruct d as [|[k w] d]; simpl; [|destruct (k =? key)]; discriminate. Qed.

Section Walker.

Variable server : nat -> request -> response.
Variable callback : response -> outcome value.
Variables link array_name pageToken : string.

(** The next page of a walk is appended to the items. *)
Lemma add_page_items (acc : list value) (next : value) (w : world) :
  page_envelope array_name next = true ->
  add_items array_name next (VList acc) w
  = (Returns (VList (acc ++ page_items array_name next)), w).
Proof.
  intros Hpage. destruct next as [| | | | |d]; try discriminate.
  unfold add_items, mbind, lift, ret, py_get, py_get_default. simpl in *.
  fold (value_of d array_name).
  destruct (value_of d array_name) as [| b | n | s | l | d'] eqn:Hv;
    simpl in *;
    try (rewrite (proj1 (negb_true_iff _) Hpage), app_nil_r; reflexivity).
  - rewrite app_nil_r. reflexivity.
  - destruct l; simpl; [rewrite app_nil_r|]; reflexivity.
Qed.

(** The parameters of the next request: the cursor is written under
    ['page[number]'], into the dictionary behind [params] when that is not
    empty, into a new dictionary otherwise. *)
Lemma page_number_query (params : ref) (envelope c : value) (w : world) :
  cursor pageToken envelope = Returns c ->
  exists params' w1,
    page_number params pageToken envelope w = (Returns params', w1)
    /\ sent w1 = sent w
    /\ deref w1 params'
       = Some (dict_set "page[number]" c (base_query (deref w params))).
Proof.
  unfold cursor. intros Hc.
  unfold page_number, mbind, ref_truthy, lift, ret, setitem, new_dict.
  rewrite Hc. destruct params as [a|]; simpl.
  - destruct (nth_error (heap w) a) as [[|x d]|] eqn:Ha; simpl.
    + eexists _, _. split; [reflexivity|]. split; [reflexivity|].
      simpl. apply nth_error_fresh.
    + rewrite Ha. eexists _, _. split; [reflexivity|].
      split; [reflexivity|]. simpl. eapply nth_error_update_nth, Ha.
    + eexists _, _. split; [reflexivity|]. split; [reflexivity|].
      simpl. apply nth_error_fresh.
  - eexists _, _. split; [reflexivity|]. split; [reflexivity|].
    simpl. apply nth_error_fresh.
Qed.

(** One turn of the loop. *)
Lemma paging_turn (fuel : nat) (params params' : ref)
    (envelope c next items items' : value) (w w1 w3 : world) :
  cursor pageToken envelope = Returns c ->
  truthy c = true ->
  page_number params pageToken envelope w = (Returns params', w1) ->
  callback (server (List.length (sent w1)) (mkRequest link (deref w1 params')))
  = Returns next ->
  add_items array_name next items
    (mkWorld (heap w1) (sent w1 ++ [mkRequest link (deref w1 params')]))
  = (Returns items', w3) ->
  paging server (S fuel) link callback params array_name pageToken
    envelope items w
  = paging server fuel link callback params' array_name pageToken
      next items' w3.
Proof.
  unfold cursor. intros Hc Htruthy Hparams Hnext Hitems.
  cbn [paging]. unfold mbind at 1. unfold lift at 1. rewrite Hc, Htruthy.
  unfold mbind at 1. rewrite Hparams.
  unfold mbind at 1. unfold get at 1.
  unfold mbind at 1. unfold lift at 1. rewrite Hnext.
  unfold mbind at 1. rewrite Hitems. reflexivity.
Qed.

Lemma paging_stop (fuel : nat) (params : ref) (envelope c items : value)
    (w : world) :
  cursor pageToken envelope = Returns c ->
  truthy c = false ->
  paging server (S fuel) link callback params array_name pageToken
    envelope items w
  = (Returns items, w).
Proof.
  unfold cursor. intros Hc Hfalsy. cbn [paging]. unfold mbind, lift.
  rewrite Hc, Hfalsy. reflexivity.
Qed.

(** The [while] loop follows a walk to its end. *)
Lemma paging_walk (rest : list value) :
  forall fuel w params envelope acc,
    List.length rest < fuel ->
    forallb (page_envelope array_name) rest = true ->
    walk server callback link pageToken (base_query (deref w params))
      (List.length (sent w)) envelope rest ->
    exists w',
      paging server fuel link callback params array_name pageToken
        envelope (VList acc) w
      = (Returns (VList (acc ++ List.concat (map (page_items array_name) rest))),
         w')
      /\ sent w'
         = sent w ++ follow_ups link pageToken (base_query (deref w params))
                       envelope rest.
Proof.
  induction rest as [|next rest IH];
    intros fuel w params envelope acc Hfuel Hpages Hwalk;
    (destruct fuel as [|fuel]; [simpl in Hfuel; lia|]).
  - destruct Hwalk as (c & Hc & Hfalsy). exists w.
    rewrite (paging_stop fuel params envelope c (VList acc) w Hc Hfalsy).
    simpl. rewrite !app_nil_r. split; reflexivity.
  - destruct Hwalk as (c & Hc & Htruthy & Hnext & Hwalk).
    simpl in Hpages. apply andb_true_iff in Hpages as [Hpage Hpages].
    assert (Hcursor : cursor_of pageToken envelope = c)
      by (unfold cursor_of; rewrite Hc; reflexivity).
    destruct (page_number_query params envelope c w Hc)
      as (params' & w1 & Hstep & Hsent1 & Hderef1).
    set (q := dict_set "page[number]" c (base_query (deref w params))) in *.
    set (w2 := mkWorld (heap w1) (sent w1 ++ [mkRequest link (deref w1 params')])).
    assert (Hturn := paging_turn fuel params params' envelope c next
                       (VList acc) (VList (acc ++ page_items array_name next))
                       w w1 w2 Hc Htruthy Hstep).
    rewrite Hderef1, Hsent1 in Hturn. specialize (Hturn Hnext).
    rewrite <- Hsent1, <- Hderef1 in Hturn.
    specialize (Hturn (add_page_items acc next _ Hpage)).
    destruct (IH fuel w2 params' next (acc ++ page_items array_name next))
      as (w' & Hrest & Hsent').
    + simpl in Hfuel. lia.
    + exact Hpages.
    + assert (Hderef2 : deref w2 params' = Some q)
        by (rewrite <- Hderef1; destruct params'; reflexivity).
      rewrite Hderef2. unfold w2. simpl.
      rewrite length_app, Hsent1. simpl. rewrite Nat.add_1_r. exact Hwalk.
    + exists w'. split.
      * rewrite Hturn, Hrest. simpl. rewrite <- app_assoc. reflexivity.
      * rewrite Hsent'.
        assert (Hderef2 : deref w2 params' = Some q)
          by (rewrite <- Hderef1; destruct params'; reflexivity).
        rewrite Hderef2. unfold w2. simpl. rewrite Hsent1, Hderef1, Hcursor.
        rewrite <- app_assoc. reflexivity.
Qed.

Lemma follow_ups_length (q : dict) (rest : list value) :
  forall envelope q0,
    List.length (follow_ups link pageToken q0 envelope rest) = List.length rest.
Proof.
  clear q. induction rest as [|next rest IH]; intros envelope q0; simpl;
    [reflexivity | rewrite IH; reflexivity].
Qed.

(** The first page: [items = resp.get(array_name) if resp.get(array_name)
    else []]. *)
Lemma first_page_items (first : value) (w : world) :
  page_envelope array_name first = true ->
  first_items array_name first w
  = (Returns (VList (page_items array_name first)), w).
Proof.
  intros Hpage. destruct first as [| | | | |d]; try discriminate.
  unfold first_items, mbind, lift, ret, py_get, py_get_default. simpl in *.
  fold (value_of d array_name).
  destruct (value_of d array_name) as [| b | n | s | l | d'] eqn:Hv;
    simpl in *;
    try (rewrite (proj1 (negb_true_iff _) Hpage); reflexivity).
  - reflexivity.
  - destruct l; reflexivity.
Qed.

Lemma list_walk (fuel : nat) (w : world) (params : ref) (first : value)
    (rest : list value) :
  List.length rest < fuel ->
  callback (server (List.length (sent w)) (mkRequest link (deref w params)))
  = Returns first ->
  forallb (page_envelope array_name) (first :: rest) = true ->
  walk server callback link pageToken (base_query (deref w params))
    (S (List.length (sent w))) first rest ->
  exists w',
    HcpSession_list server fuel link callback params array_name pageToken w
    = (Returns (VList (List.concat (map (page_items array_name)
                                      (first :: rest)))), w')
    /\ sent w'
       = sent w ++ mkRequest link (deref w params)
                   :: follow_ups link pageToken (base_query (deref w params))
                        first rest.
Proof.
  intros Hfuel Hfirst Hpages Hwalk.
  simpl in Hpages. apply andb_true_iff in Hpages as [Hpage Hpages].
  set (w1 := mkWorld (heap w) (sent w ++ [mkRequest link (deref w params)])).
  assert (Hderef : deref w1 params = deref w params)
    by (destruct params; reflexivity).
  destruct (paging_walk rest fuel w1 params first
              (page_items array_name first) Hfuel Hpages) as (w' & Hloop & Hsent).
  { rewrite Hderef. unfold w1. simpl. rewrite length_app. simpl.
    rewrite Nat.add_1_r. exact Hwalk. }
  exists w'. split.
  - unfold HcpSession_list. unfold mbind at 1. unfold get at 1.
    unfold mbind at 1. unfold lift at 1. rewrite Hfirst.
    unfold mbind at 1. fold w1.
    rewrite (first_page_items first w1 Hpage). exact Hloop.
  - rewrite Hsent, Hderef. unfold w1. simpl. rewrite <- app_assoc.
    reflexivity.
Qed.

End Walker.

(* ------------------------------------------------------------------ *)
(** ** Pagination (C3) *)

(** C3, the claim as it stands fails: a cursor 0 is present and is neither
    null nor false, and the walker stops on it ([while 0]). *)
Lemma list_stops_on_cursor_zero :
  ~ (forall server fuel first c,
        1 <= fuel ->
        return_if_object false (server 0 (mkRequest "u" None)) = Returns first ->
        cursor "next-page" first = Returns c ->
        cursor_given c = true ->
        2 <= List.length
               (sent (snd (HcpSession_list server fuel "u"
                             (return_if_object false) None "data" "next-page"
                             (mkWorld [] []))))).
Proof.
  intros claim.
  specialize (claim cursor_zero 1 _ (VInt 0) (le_n 1) eq_refl eq_refl eq_refl).
  vm_compute in claim. lia.
Qed.

(** C3 (amended): [list(url, decode, params)] GETs [url] and takes the
    item array under ['data'] (an absent or empty array counts as no
    item); then, while the envelope's [meta.pagination.'next-page'] value
    is truthy (present and not null, false, zero or empty), it sets the
    query parameter ['page[number]'] to that value and issues another
    GET, appending each page's items in fetch order: on a walk of pages it
    returns the concatenation of their items and has sent one request per
    page. *)
Theorem list_follows_cursor (server : nat -> request -> response)
    (callback : response -> outcome value) (link : string)
    (fuel : nat) (w : world) (params : ref) (first : value)
    (rest : list value) :
  List.length rest < fuel ->
  callback (server (List.length (sent w)) (mkRequest link (deref w params)))
  = Returns first ->
  forallb (page_envelope "data") (first :: rest) = true ->
  walk server callback link "next-page" (base_query (deref w params))
    (S (List.length (sent w))) first rest ->
  exists w',
    HcpSession_list server fuel link callback params "data" "next-page" w
    = (Returns (VList (List.concat (map (page_items "data") (first :: rest)))),
       w')
    /\ sent w'
       = sent w ++ mkRequest link (deref w params)
                   :: follow_ups link "next-page"
                        (base_query (deref w params)) first rest
    /\ List.length (sent w') = List.length (sent w) + 1 + List.length rest.
Proof.
  intros Hfuel Hfirst Hpages Hwalk.
  destruct (list_walk server callback link "data" "next-page" fuel w params
              first rest Hfuel Hfirst Hpages Hwalk) as (w' & Hlist & Hsent).
  exists w'. split; [exact Hlist|]. split; [exact Hsent|].
  rewrite Hsent, length_app. simpl.
  rewrite (follow_ups_length link "next-page" [] rest). lia.
Qed.

(** The scenario of the specification: two items and the cursor 2, then
    one item and no cursor. *)
Lemma list_follows_cursor_witness :
  exists w',
    HcpSession_list two_pages 2 "u" (return_if_object false) None
      "data" "next-page" (mkWorld [] [])
    = (Returns (VList [VStr "a"; VStr "b"; VStr "c"]), w')
    /\ sent w' = [mkRequest "u" None;
                  mkRequest "u" (Some [("page[number]", VInt 2)])]
    /\ List.length (sent w') = 2.
Proof.
  apply (list_follows_cursor two_pages (return_if_object false) "u" 2
           (mkWorld [] []) None
           (VDict [("data", VList [VStr "a"; VStr "b"]);
                   ("meta", VDict [("pagination",
                                    VDict [("next-page", VInt 2)])])])
           [VDict [("data", VList [VStr "c"]);
                   ("meta", VDict [("pagination",
                                    VDict [("next-page", VNone)])])]]).
  - simpl. lia.
  - reflexivity.
  - reflexivity.
  - simpl. exists (VInt 2). repeat split.
    exists VNone. split; reflexivity.
Defined.

(* ------------------------------------------------------------------ *)
(** ** The caller's [params] dictionary (C10) *)

Lemma add_items_world (array_name : string) (resp items : value) (w : world) :
  snd (add_items array_name resp items w) = w.
Proof.
  unfold add_items, mbind, lift, ret.
  destruct (py_get resp array_name) as [data| | |]; try reflexivity.
  destruct (truthy data); [|reflexivity].
  destruct (py_add items data); reflexivity.
Qed.

Lemma first_items_world (array_name : string) (resp : value) (w : world) :
  snd (first_items array_name resp w) = w.
Proof.
  unfold first_items, mbind, lift, ret.
  destruct (py_get resp array_name) as [data| | |]; try reflexivity.
  destruct (truthy data); reflexivity.
Qed.

Section InPlace.

Variable server : nat -> request -> response.
Variable callback : response -> outcome value.
Variables link array_name pageToken : string.

(** The dictionary of the caller: its address and its entries at the
    call. *)
Variable a : nat.
Variable d : dict.
Hypothesis d_nonempty : d <> [].

Lemma written_nonempty (dcur : dict) : entries_kept d dcur -> dcur <> [].
Proof.
  intros [-> | (c & ->)]; [exact d_nonempty | apply dict_set_nonempty].
Qed.

Lemma written_set (dcur : dict) (c : value) :
  entries_kept d dcur ->
  dict_set "page[number]" c dcur = dict_set "page[number]" c d.
Proof.
  intros [-> | (c' & ->)]; [reflexivity | apply dict_set_twice].
Qed.

(** The first statement of the loop body writes into the caller's
    dictionary. *)
Lemma page_number_in_place (envelope c : value) (dcur : dict) (w : world) :
  cursor pageToken envelope = Returns c ->
  nth_error (heap w) a = Some dcur ->
  entries_kept d dcur ->
  page_number (Some a) pageToken envelope w
  = (Returns (Some a),
     mkWorld (update_nth a (dict_set "page[number]" c d) (heap w)) (sent w)).
Proof.
  unfold cursor. intros Hc Ha Hw.
  unfold page_number, mbind, ref_truthy, lift, ret, setitem, deref.
  rewrite Ha. pose proof (written_nonempty dcur Hw) as Hne.
  destruct dcur as [|x dcur]; [contradiction|].
  rewrite Hc, Ha. rewrite (written_set (x :: dcur) c Hw). reflexivity.
Qed.

(** Whatever the outcome of the loop, every request it sends carries the
    caller's entries and a page number, and once it has sent one the
    caller's dictionary holds a page number next to its entries. *)
Lemma paging_in_place (fuel : nat) :
  forall w envelope items dcur o w',
    nth_error (heap w) a = Some dcur ->
    entries_kept d dcur ->
    paging server fuel link callback (Some a) array_name pageToken
      envelope items w = (o, w') ->
    exists dcur' later,
      nth_error (heap w') a = Some dcur'
      /\ sent w' = sent w ++ later
      /\ Forall (carries_entries d) later
      /\ ((later = [] /\ dcur' = dcur)
          \/ (later <> [] /\ exists c, dcur' = dict_set "page[number]" c d))
      /\ (forall c, cursor pageToken envelope = Returns c ->
                    truthy c = true -> fuel <> 0 -> later <> []).
Proof.
  induction fuel as [|fuel IH]; intros w envelope items dcur o w' Ha Hw Hrun.
  - injection Hrun as <- <-. exists dcur, []. rewrite app_nil_r.
    repeat split; auto; intros c _ _ H; contradiction.
  - cbn [paging] in Hrun. unfold mbind at 1 in Hrun. unfold lift at 1 in Hrun.
    destruct (cursor pageToken envelope) as [c| | |] eqn:Hc;
      unfold cursor in Hc; rewrite Hc in Hrun;
      try (injection Hrun as <- <-; exists dcur, []; rewrite app_nil_r;
           repeat split; auto; intros c' Hc'; discriminate Hc').
    destruct (truthy c) eqn:Htruthy.
    2:{ injection Hrun as <- <-. exists dcur, []. rewrite app_nil_r.
        repeat split; auto. intros c' Hc' Ht'.
        injection Hc' as <-. congruence. }
    unfold mbind at 1 in Hrun.
    rewrite (page_number_in_place envelope c dcur w Hc Ha Hw) in Hrun.
    set (q := dict_set "page[number]" c d) in *.
    set (w1 := mkWorld (update_nth a q (heap w)) (sent w)) in *.
    assert (Ha1 : nth_error (heap w1) a = Some q)
      by (eapply nth_error_update_nth, Ha).
    unfold mbind at 1 in Hrun. unfold get at 1 in Hrun.
    assert (Hderef : deref w1 (Some a) = Some q) by exact Ha1.
    rewrite Hderef in Hrun.
    set (rq := mkRequest link (Some q)) in *.
    set (w2 := mkWorld (heap w1) (sent w1 ++ [rq])) in *.
    assert (Hpaged : carries_entries d rq) by (exists c; reflexivity).
    assert (Hq : entries_kept d q) by (right; exists c; reflexivity).
    assert (Hstop : exists dcur' later,
               nth_error (heap w2) a = Some dcur'
               /\ sent w2 = sent w ++ later
               /\ Forall (carries_entries d) later
               /\ ((later = [] /\ dcur' = dcur)
                   \/ (later <> []
                       /\ exists c, dcur' = dict_set "page[number]" c d))
               /\ (forall c0, Returns c = Returns c0 ->
                              truthy c0 = true -> S fuel <> 0 -> later <> [])).
    { exists q, [rq]. repeat split; auto.
      - right. split; [discriminate | exists c; reflexivity].
      - intros; discriminate. }
    unfold mbind at 1 in Hrun. unfold lift at 1 in Hrun.
    destruct (callback (server (List.length (sent w1)) rq)) as [next| | |];
      try (injection Hrun as <- <-; exact Hstop).
    unfold mbind at 1 in Hrun.
    pose proof (add_items_world array_name next items w2) as Hworld.
    destruct (add_items array_name next items w2) as [[items'| | |] w3];
      simpl in Hworld; subst w3;
      try (injection Hrun as <- <-; exact Hstop).
    destruct (IH w2 next items' q o w' Ha1 Hq Hrun)
      as (dcur' & later & H1 & H2 & H3 & H4 & _).
    exists dcur', (rq :: later). split; [exact H1|]. split; [|split; [|split]].
    + rewrite H2. unfold w2. simpl. rewrite <- app_assoc. reflexivity.
    + constructor; assumption.
    + right. split; [discriminate|].
      destruct H4 as [[_ ->] | [_ H4]]; [exists c; reflexivity | exact H4].
    + intros; discriminate.
Qed.

End InPlace.

Lemma cursor_truthy_mapping (pageToken : string) (envelope c : value) :
  cursor pageToken envelope = Returns c ->
  truthy c = true ->
  exists e, envelope = VDict e.
Proof.
  unfold cursor. intros H Htruthy.
  destruct envelope as [| b | n | s | l | e]; [| | | | |eauto]; exfalso;
    simpl in H;
    repeat match type of H with
           | context [if ?b then _ else _] => destruct b; simpl in H
           end;
    try discriminate H; injection H as <-; discriminate Htruthy.
Qed.

Lemma first_items_mapping (array_name : string) (e : dict) (w : world) :
  exists items, first_items array_name (VDict e) w = (Returns items, w).
Proof.
  unfold first_items, mbind, lift, ret. simpl.
  destruct (truthy _); eauto.
Qed.

(** C10, the claim as it stands fails: an empty dictionary supplied by the
    caller is falsy, so the page number goes into a new dictionary and the
    caller's object stays as it was. *)
Lemma list_leaves_empty_params_alone :
  ~ (forall (server : nat -> request -> response) (w : world) (a : nat)
            (d : dict) (first c : value),
        nth_error (heap w) a = Some d ->
        return_if_object false
          (server (List.length (sent w)) (mkRequest "u" (Some d)))
        = Returns first ->
        cursor "next-page" first = Returns c ->
        truthy c = true ->
        exists d',
          nth_error
            (heap (snd (HcpSession_list server 2 "u" (return_if_object false)
                          (Some a) "data" "next-page" w))) a = Some d'
          /\ dict_get "page[number]" d' <> None).
Proof.
  intros claim.
  destruct (claim two_pages (mkWorld [[]] []) 0 [] _ (VInt 2)
              eq_refl eq_refl eq_refl eq_refl) as (d' & Hd' & Hpage).
  vm_compute in Hd'. injection Hd' as <-. apply Hpage. reflexivity.
Qed.

(** C10 (amended): when [HcpSession.list] is called with a non-empty
    [params] dictionary of the caller and the first page carries a (truthy)
    cursor, the key ['page[number]'] is written into that same dictionary
    object: after the call, whatever its outcome, the caller's dictionary
    holds a page number, its other entries are unchanged, and every request
    after the first has carried them. *)
Theorem list_writes_page_number (server : nat -> request -> response)
    (callback : response -> outcome value) (link : string) (fuel : nat)
    (w w' : world) (a : nat) (d : dict) (first c : value)
    (o : outcome value) :
  d <> [] ->
  nth_error (heap w) a = Some d ->
  callback (server (List.length (sent w)) (mkRequest link (Some d)))
  = Returns first ->
  cursor "next-page" first = Returns c ->
  truthy c = true ->
  fuel <> 0 ->
  HcpSession_list server fuel link callback (Some a) "data" "next-page" w
  = (o, w') ->
  exists c' later,
    nth_error (heap w') a = Some (dict_set "page[number]" c' d)
    /\ (forall k, k <> "page[number]" ->
                  dict_get k (dict_set "page[number]" c' d) = dict_get k d)
    /\ sent w' = sent w ++ mkRequest link (Some d) :: later
    /\ later <> []
    /\ Forall (fun rq =>
                 exists q, query rq = Some q
                           /\ dict_get "page[number]" q <> None
                           /\ forall k, k <> "page[number]" ->
                                        dict_get k q = dict_get k d) later.
Proof.
  intros Hd Ha Hfirst Hc Htruthy Hfuel Hrun.
  destruct (cursor_truthy_mapping "next-page" first c Hc Htruthy) as [e ->].
  unfold HcpSession_list in Hrun.
  unfold mbind at 1 in Hrun. unfold get at 1 in Hrun.
  assert (Hderef : deref w (Some a) = Some d) by exact Ha.
  rewrite Hderef in Hrun.
  unfold mbind at 1 in Hrun. unfold lift at 1 in Hrun. rewrite Hfirst in Hrun.
  unfold mbind at 1 in Hrun.
  set (w1 := mkWorld (heap w) (sent w ++ [mkRequest link (Some d)])) in *.
  destruct (first_items_mapping "data" e w1) as [items Hitems].
  rewrite Hitems in Hrun.
  destruct (paging_in_place server callback link "data" "next-page" a d Hd
              fuel w1 (VDict e) items d o w' Ha (or_introl eq_refl) Hrun)
    as (dcur' & later & H1 & H2 & H3 & H4 & H5).
  specialize (H5 c Hc Htruthy Hfuel).
  destruct H4 as [[Hnil _] | [_ (c' & ->)]]; [contradiction|].
  exists c', later. split; [exact H1|]. split.
  { intros k Hk. apply dict_get_set_other, Hk. }
  split.
  { rewrite H2. unfold w1. simpl. rewrite <- app_assoc. reflexivity. }
  split; [exact H5|].
  eapply Forall_impl; [|exact H3].
  intros rq (c'' & Hq). exists (dict_set "page[number]" c'' d).
  split; [exact Hq|]. split.
  - rewrite dict_get_set. discriminate.
  - intros k Hk. apply dict_get_set_other, Hk.
Qed.

Lemma list_writes_page_number_witness :
  exists c' later,
    nth_error
      (heap (snd (HcpSession_list two_pages 2 "u" (return_if_object false)
                    (Some 0) "data" "next-page"
                    (mkWorld [[("filter[names]", VStr "x")]] []))))
      0
    = Some (dict_set "page[number]" c' [("filter[names]", VStr "x")])
    /\ later <> []
    /\ sent (snd (HcpSession_list two_pages 2 "u" (return_if_object false)
                    (Some 0) "data" "next-page"
                    (mkWorld [[("filter[names]", VStr "x")]] [])))
       = mkRequest "u" (Some [("filter[names]", VStr "x")]) :: later.
Proof.
  destruct (list_writes_page_number two_pages (return_if_object false) "u" 2
              (mkWorld [[("filter[names]", VStr "x")]] [])
              (snd (HcpSession_list two_pages 2 "u" (return_if_object false)
                      (Some 0) "data" "next-page"
                      (mkWorld [[("filter[names]", VStr "x")]] [])))
              0 [("filter[names]", VStr "x")]
              (VDict [("data", VList [VStr "a"; VStr "b"]);
                      ("meta", VDict [("pagination",
                                       VDict [("next-page", VInt 2)])])])
              (VInt 2)
              (fst (HcpSession_list two_pages 2 "u" (return_if_object false)
                      (Some 0) "data" "next-page"
                      (mkWorld [[("filter[names]", VStr "x")]] []))))
    as (c' & later & H1 & _ & H3 & H4 & _);
    try reflexivity; try discriminate.
  exists c', later. split; [exact H1|]. split; [exact H4 | exact H3].
Defined.

(* ------------------------------------------------------------------ *)
(** ** Failing pages (C4) *)

(** A body that is not JSON is fatal, whatever the module. *)
Lemma return_if_object_invalid_json (allow_not_found : bool) (r : response) :
  json r = None ->
  return_if_object allow_not_found r = Fails InvalidJson
  \/ return_if_object allow_not_found r = Returns VNone.
Proof.
  intros Hjson. unfold return_if_object, response_json. rewrite Hjson.
  destruct (allow_not_found && (status_code r =? 404)%Z); [now right|].
  destruct (status_code r =? 204)%Z; [now right|].
  destruct (allow_not_found && (status_code r =? 403)%Z); [now right|].
  now left.
Qed.

(** In the [_info] modules a status from 400 to 599, but for 404, is
    fatal. *)
Lemma return_if_object_info_status (r : response) :
  (400 <= status_code r < 600)%Z ->
  status_code r <> 404%Z ->
  exists msg, return_if_object_info r = Fails msg.
Proof.
  intros [Hlo Hhi] H404.
  unfold return_if_object_info, raise_for_status, response_json.
  destruct (status_code r =? 404)%Z eqn:E404; [apply Z.eqb_eq in E404; lia|].
  destruct (status_code r =? 204)%Z eqn:E204; [apply Z.eqb_eq in E204; lia|].
  apply Z.leb_le in Hlo. apply Z.ltb_lt in Hhi. rewrite Hlo, Hhi. simpl.
  destruct (json r); simpl; eauto.
Qed.

(** A fatal page ends the listing: nothing is returned. *)
Lemma paging_fatal (server : nat -> request -> response)
    (callback : response -> outcome value) (link array_name pageToken : string)
    (fuel : nat) (params params' : ref) (envelope c items : value)
    (w w1 : world) (msg : failure) :
  cursor pageToken envelope = Returns c ->
  truthy c = true ->
  page_number params pageToken envelope w = (Returns params', w1) ->
  callback (server (List.length (sent w1)) (mkRequest link (deref w1 params')))
  = Fails msg ->
  fst (paging server (S fuel) link callback params array_name pageToken
         envelope items w)
  = Fails msg.
Proof.
  unfold cursor. intros Hc Htruthy Hparams Hnext.
  cbn [paging]. unfold mbind at 1. unfold lift at 1. rewrite Hc, Htruthy.
  unfold mbind at 1. rewrite Hparams.
  unfold mbind at 1. unfold get at 1.
  unfold mbind at 1. unfold lift at 1. rewrite Hnext. reflexivity.
Qed.

(** C4, the code at the failing input: the second page of a project
    listing is an HTTP 500 whose body is the JSON object [{}]. The
    [return_if_object] of [hcp_terraform_project] does not look at the
    status, and the listing returns the two items of the first page; with
    the [return_if_object] of [hcp_terraform_project_info], which calls
    [raise_for_status], the same listing is fatal. *)
Theorem list_returns_partial_on_http_500 :
  fst (HcpSession_list second_page_500 5 "u" (return_if_object false) None
         "data" "next-page" (mkWorld [] []))
  = Returns (VList [VStr "a"; VStr "b"])
  /\ fst (HcpSession_list second_page_500 5 "u" return_if_object_info None
            "data" "next-page" (mkWorld [] []))
     = Fails (ApiCallError (VDict [])).
Proof. split; reflexivity. Qed.

(* ------------------------------------------------------------------ *)
(** ** Lookup by natural key (C1) *)

(** [fetch_by_name] on the list it has fetched: none is "not found", one is
    the result, more are fatal. *)
Lemma fetch_by_name_outcome (server : nat -> request -> response)
    (fuel : nat) (name : value) (link : string) (w w1 w' : world)
    (params : ref) (l : list value) :
  new_dict [("filter[names]", name)] w = (Returns params, w1) ->
  HcpSession_list server fuel link (return_if_object false) params
    "data" "next-page" w1
  = (Returns (VList l), w') ->
  fetch_by_name server fuel name link w
  = (match l with
     | [] => Returns VNone
     | [x] => Returns x
     | _ :: _ :: _ => Fails (ExpectedOne (List.length l) (VList l))
     end, w').
Proof.
  intros Hparams Hlist. unfold fetch_by_name.
  unfold mbind at 1. rewrite Hparams.
  unfold mbind at 1. rewrite Hlist.
  unfold mbind, lift, fail_json, ret. simpl.
  destruct l as [|x [|y l]]; reflexivity.
Qed.

(** [fetch_by_key] finds nothing in a list without a match. *)
Lemma first_var_none (key category : string) (vars : list value) :
  Forall (fun var => exists e attributes,
              var = VDict e
              /\ value_of e "attributes" = VDict attributes
              /\ (eq_text (value_of attributes "key") key
                  && eq_text (value_of attributes "category") category
                  = false)) vars ->
  first_var key category vars = Returns VNone.
Proof.
  induction 1 as [|var vars (e & attributes & -> & Hattr & Hno) _ IH];
    [reflexivity|].
  cbn [first_var]. unfold py_get_default at 1. cbn [bind].
  unfold value_of in Hattr.
  destruct (dict_get "attributes" e) as [v|] eqn:He; [|discriminate].
  subst v. unfold py_get, py_get_default, bind.
  fold (value_of attributes "key"). fold (value_of attributes "category").
  rewrite He.
  destruct (eq_text (value_of attributes "key") key) eqn:Hk; [|exact IH].
  simpl in Hno. fold (value_of attributes "category"). rewrite Hno. exact IH.
Qed.

(** C1, the code at the failing input: the collection lists two variables
    with the key ["region"] and the category ["terraform"]. [fetch_by_key]
    returns the first of them; [fetch_by_name] on a list of two is
    fatal. *)
Theorem fetch_by_key_returns_first_match :
  fst (fetch_by_key duplicate_vars (return_if_object false)
         "region" "terraform" "u" (mkWorld [] []))
  = Returns (var "var-1" "region" "terraform")
  /\ fst (fetch_by_name duplicate_vars 5 (VStr "region") "u" (mkWorld [] []))
     = Fails (ExpectedOne 2 (VList [var "var-1" "region" "terraform";
                                    var "var-2" "region" "terraform"])).
Proof. split; reflexivity. Qed.

(* ================================================================== *)
(** * Further properties of the difference engine *)

Lemma dict_set_In (key : string) (x : value) (d : dict) (k : string)
    (v : value) :
  In (k, v) (dict_set key x d) -> (k = key /\ v = x) \/ In (k, v) d.
Proof.
  induction d as [|[k' w] d IH]; simpl.
  - intros [H | []]. injection H as <- <-. now left.
  - destruct (k' =? key) eqn:Hk; simpl.
    + apply String.eqb_eq in Hk as ->.
      intros [H | H]; [injection H as <- <-; now left | right; now right].
    + intros [H | H]; [right; now left|].
      destruct (IH H) as [Hnew | Hold]; [now left | right; now right].
Qed.

Section MappingDifference.

Variable compare : value -> value -> outcome value.

(** What the loop over the keys adds to the difference: keys of the
    request, with a non-empty difference as value. *)
Lemma each_key_entries (req_dict : dict) (resp_dict : value)
    (req_keys : list string) :
  forall difference out,
    each_key compare req_keys req_dict resp_dict difference = Returns out ->
    forall k v, In (k, v) out ->
                In (k, v) difference \/ (In k req_keys /\ truthy v = true).
Proof.
  induction req_keys as [|key rest IH]; intros difference out H k v Hin;
    simpl in H.
  - injection H as <-. now left.
  - destruct (py_get resp_dict key) as [resp_value| | |]; try discriminate.
    simpl in H. destruct (is_none resp_value); simpl in H.
    + destruct (IH _ _ H k v Hin) as [Hacc | [Hk Hv]];
        [now left | right; split; [now right | exact Hv]].
    + fold (value_of req_dict key) in H.
      destruct (compare (value_of req_dict key) resp_value) as [diff| | |]
        eqn:Hc; try discriminate.
      simpl in H.
      destruct (IH _ _ H k v Hin) as [Hacc | [Hk Hv]];
        [|right; split; [now right | exact Hv]].
      destruct (truthy diff) eqn:Hdiff; [|now left].
      destruct (dict_set_In key diff difference k v Hacc) as [[-> ->] | Hold];
        [right; split; [now left | exact Hdiff] | now left].
Qed.

(** The loop reads the response only under the keys of the request. *)
Lemma each_key_frame (req_dict r1 r2 : dict) (req_keys : list string) :
  (forall k, In k req_keys -> dict_get k r1 = dict_get k r2) ->
  forall difference,
    each_key compare req_keys req_dict (VDict r1) difference
    = each_key compare req_keys req_dict (VDict r2) difference.
Proof.
  induction req_keys as [|key rest IH]; intros Hsame difference;
    [reflexivity|].
  simpl. rewrite (Hsame key (or_introl eq_refl)).
  assert (Hrest : forall k, In k rest -> dict_get k r1 = dict_get k r2)
    by (intros k Hk; apply Hsame; now right).
  destruct (is_none _); simpl.
  - apply IH, Hrest.
  - destruct (compare _ _); simpl; try reflexivity. apply IH, Hrest.
Qed.

(** The loop leaves the difference empty exactly when every key of the
    request whose response value is not null matches. *)
Lemma each_key_empty (req_dict rd : dict) (req_keys : list string) :
  forall difference out,
    each_key compare req_keys req_dict (VDict rd) difference = Returns out ->
    (out = [] <->
     difference = []
     /\ forall key, In key req_keys ->
                    is_none (value_of rd key) = false ->
                    item_matches compare (value_of req_dict key)
                      (value_of rd key) = true).
Proof.
  induction req_keys as [|key rest IH]; intros difference out H; simpl in H.
  - injection H as <-. split; [intros ->; split; [reflexivity | intros ? []]
                              | intros [-> _]; reflexivity].
  - fold (value_of rd key) in H. fold (value_of req_dict key) in H.
    destruct (is_none (value_of rd key)) eqn:Hnone; simpl in H.
    + rewrite (IH _ _ H). split; intros [Hd Hall]; (split; [exact Hd|]).
      * intros k [<- | Hk] Hsome; [congruence | apply Hall; assumption].
      * intros k Hk. apply Hall. now right.
    + destruct (compare (value_of req_dict key) (value_of rd key))
        as [diff| | |] eqn:Hc; try discriminate.
      simpl in H. rewrite (IH _ _ H).
      destruct (truthy diff) eqn:Hdiff.
      * split.
        -- intros [Hd _]. exfalso. eapply dict_set_nonempty, Hd.
        -- intros [_ Hall]. specialize (Hall key (or_introl eq_refl) Hnone).
           unfold item_matches, empty in Hall. rewrite Hc, Hdiff in Hall.
           discriminate.
      * split; intros [Hd Hall]; (split; [exact Hd|]).
        -- intros k [<- | Hk] Hsome; [|apply Hall; assumption].
           unfold item_matches, empty. rewrite Hc, Hdiff. reflexivity.
        -- intros k Hk. apply Hall. now right.
Qed.

End MappingDifference.

(** X1: a difference of mappings only has keys of the desired mapping, and
    every value it records is a non-empty difference. *)
Theorem difference_mapping_entries (unicode_fails : value -> bool) (d : dict)
    (actual diff : value) :
  difference unicode_fails (VDict d) actual = Returns diff ->
  diff = VNone
  \/ exists out, diff = VDict out
                 /\ forall k v, In (k, v) out ->
                                In k (keys d) /\ truthy v = true.
Proof.
  intros H. destruct (is_none actual) eqn:Hnone.
  - left. unfold difference in H. cbn [_compare_value] in H.
    rewrite Hnone in H. injection H as <-. reflexivity.
  - right. rewrite difference_of_mapping in H by exact Hnone.
    unfold _compare_dicts in H.
    destruct (each_key _ (keys d) d actual []) as [out| | |] eqn:Hloop;
      try discriminate.
    injection H as <-. exists out. split; [reflexivity|].
    intros k v Hin.
    destruct (each_key_entries _ d actual (keys d) [] out Hloop k v Hin)
      as [[] | Hkv].
    exact Hkv.
Qed.

Lemma difference_mapping_entries_witness :
  exists out,
    VDict [("test", VStr "original")] = VDict out
    /\ forall k v, In (k, v) out ->
                   In k (keys [("foo", VStr "bar"); ("test", VStr "original")])
                   /\ truthy v = true.
Proof.
  destruct (difference_mapping_entries never_fails
              [("foo", VStr "bar"); ("test", VStr "original")]
              (VDict [("foo", VStr "bar"); ("test", VStr "different")])
              (VDict [("test", VStr "original")]) eq_refl) as [H | H].
  - discriminate H.
  - exact H.
Defined.

(** X2: the comparison of mappings reads the actual mapping only under the
    keys of the desired one: extra keys of the response are ignored. *)
Theorem difference_ignores_other_keys (unicode_fails : value -> bool)
    (d r1 r2 : dict) :
  (forall k, In k (keys d) -> dict_get k r1 = dict_get k r2) ->
  difference unicode_fails (VDict d) (VDict r1)
  = difference unicode_fails (VDict d) (VDict r2).
Proof.
  intros Hsame. rewrite !difference_of_mapping by reflexivity.
  unfold _compare_dicts. rewrite (each_key_frame _ d r1 r2 (keys d) Hsame).
  reflexivity.
Qed.

Lemma difference_ignores_other_keys_witness :
  difference never_fails (VDict [("name", VStr "a")])
    (VDict [("name", VStr "b"); ("id", VStr "prj-1")])
  = difference never_fails (VDict [("name", VStr "a")])
      (VDict [("name", VStr "b")]).
Proof.
  apply (difference_ignores_other_keys never_fails [("name", VStr "a")]).
  intros k [<- | []]. reflexivity.
Defined.

(** X3: a difference of mappings is empty exactly when every desired key
    whose actual value is not null has a value that matches it. *)
Theorem difference_mapping_empty (unicode_fails : value -> bool)
    (d rd : dict) (diff : value) :
  difference unicode_fails (VDict d) (VDict rd) = Returns diff ->
  (empty diff = true <->
   forall key, In key (keys d) ->
               is_none (value_of rd key) = false ->
               matches unicode_fails (value_of d key) (value_of rd key) = true).
Proof.
  intros H. rewrite difference_of_mapping in H by reflexivity.
  unfold _compare_dicts in H.
  destruct (each_key _ (keys d) d (VDict rd) []) as [out| | |] eqn:Hloop;
    try discriminate.
  injection H as <-.
  pose proof (each_key_empty _ d rd (keys d) [] out Hloop) as Hempty.
  assert (Hout : empty (VDict out) = true <-> out = [])
    by (destruct out; simpl; split; intros H0;
        (reflexivity || discriminate H0)).
  rewrite Hout, Hempty. split.
  - intros [_ Hall] key Hkey Hsome.
    rewrite <- (item_matches_difference unicode_fails (height (VDict d)))
      by (apply value_of_height, Hkey).
    apply Hall; assumption.
  - intros Hall. split; [reflexivity|]. intros key Hkey Hsome.
    rewrite (item_matches_difference unicode_fails (height (VDict d)))
      by (apply value_of_height, Hkey).
    apply Hall; assumption.
Qed.

Lemma difference_mapping_empty_witness :
  empty (VDict []) = true <->
  forall key, In key (keys [("name", VStr "a"); ("description", VNone)]) ->
              is_none (value_of [("name", VStr "a"); ("description", VStr "x")]
                         key) = false ->
              matches never_fails
                (value_of [("name", VStr "a"); ("description", VNone)] key)
                (value_of [("name", VStr "a"); ("description", VStr "x")] key)
              = true.
Proof.
  apply (difference_mapping_empty never_fails
           [("name", VStr "a"); ("description", VNone)]
           [("name", VStr "a"); ("description", VStr "x")] (VDict [])).
  reflexivity.
Defined.

(* ------------------------------------------------------------------ *)
(** ** Scalars and equality *)

Lemma difference_scalar_cases (unicode_fails : value -> bool)
    (desired actual : value) :
  scalar desired = true ->
  (forall b, desired <> VBool b) ->
  difference unicode_fails desired actual = Returns VNone
  \/ difference unicode_fails desired actual = Returns desired.
Proof.
  intros Hscalar Hbool. unfold difference.
  destruct desired as [| b | n | s | l | d]; try discriminate;
    try (exfalso; eapply Hbool; reflexivity);
    simpl; destruct (is_none actual); auto; unfold to_text;
    destruct (unicode_fails _); simpl; auto;
    destruct (unicode_fails actual); simpl; auto;
    destruct (negb _); auto.
Qed.

(** X4: for a desired scalar that is not a boolean the difference is null
    or the desired value itself, so an empty desired scalar ([None], [''],
    [0]) never gives a non-empty difference, whatever the actual value. *)
Theorem difference_of_scalar (unicode_fails : value -> bool)
    (desired actual : value) :
  scalar desired = true ->
  (forall b, desired <> VBool b) ->
  (difference unicode_fails desired actual = Returns VNone
   \/ difference unicode_fails desired actual = Returns desired)
  /\ (truthy desired = false ->
      exists diff, difference unicode_fails desired actual = Returns diff
                   /\ empty diff = true).
Proof.
  intros Hscalar Hbool.
  pose proof (difference_scalar_cases unicode_fails desired actual
                Hscalar Hbool) as H.
  split; [exact H|]. intros Hfalsy.
  destruct H as [-> | ->]; eexists; (split; [reflexivity|]);
    unfold empty; [reflexivity | rewrite Hfalsy; reflexivity].
Qed.

Lemma difference_of_scalar_witness :
  exists diff,
    difference never_fails (VStr EmptyString) (VStr "old") = Returns diff
    /\ empty diff = true.
Proof.
  apply (proj2 (difference_of_scalar never_fails (VStr EmptyString)
                  (VStr "old") eq_refl
                  ltac:(intros b H; discriminate H))).
  reflexivity.
Defined.

(** X5: null is equal to everything: an [HcpRequest] holding [None] compares
    equal to any other, on either side. *)
Theorem eq_none (unicode_fails : value -> bool) (v : value) :
  __eq__ unicode_fails v VNone = Returns true
  /\ __eq__ unicode_fails VNone v = Returns true.
Proof.
  assert (Hleft : difference unicode_fails v VNone = Returns VNone)
    by (unfold difference; reflexivity).
  assert (Hright : difference unicode_fails VNone v = Returns VNone).
  { destruct (difference_scalar_cases unicode_fails VNone v eq_refl
                ltac:(intros b H; discriminate H)) as [H | H]; exact H. }
  unfold __eq__. rewrite Hleft, Hright. split; reflexivity.
Qed.

Lemma integer_text_injective (a b : Z) :
  py_str (VInt a) = py_str (VInt b) -> a = b.
Proof.
  simpl. intros H.
  assert (Hnn : forall z, Z.to_int z <> Decimal.Pos Decimal.Nil
                          /\ Z.to_int z <> Decimal.Neg Decimal.Nil).
  { intros [|p|p]; simpl; split; try discriminate; intros E;
      injection E as E; exact (DecimalPos.Unsigned.to_uint_nonnil p E). }
  assert (Ha := NilZero.isi (Z.to_int a) (proj1 (Hnn a)) (proj2 (Hnn a))).
  assert (Hb := NilZero.isi (Z.to_int b) (proj1 (Hnn b)) (proj2 (Hnn b))).
  rewrite H, Hb in Ha. injection Ha as Ha.
  rewrite <- (DecimalZ.of_to a), <- (DecimalZ.of_to b), Ha. reflexivity.
Qed.

(** X6: on two texts, and on two integers, [==] is equality: what one
    direction of the comparison misses (an empty desired text, a desired
    0) the other direction reports. A number and its decimal text are
    equal. *)
Theorem eq_scalars (unicode_fails : value -> bool) :
  (forall v, scalar v = true -> unicode_fails v = false) ->
  (forall a b, __eq__ unicode_fails (VStr a) (VStr b) = Returns (a =? b))
  /\ (forall a b, __eq__ unicode_fails (VInt a) (VInt b)
                  = Returns (a =? b)%Z)
  /\ (forall n, __eq__ unicode_fails (VInt n) (VStr (py_str (VInt n)))
                = Returns true).
Proof.
  intros Hok. split; [|split].
  - intros a b. unfold __eq__, difference. simpl. unfold to_text.
    rewrite !Hok by reflexivity. simpl. rewrite (String.eqb_sym b a).
    destruct (a =? b) eqn:Hab; simpl; [reflexivity|].
    destruct (a =? EmptyString) eqn:Ha; simpl; [|reflexivity].
    destruct (b =? EmptyString) eqn:Hb; simpl; [|reflexivity].
    apply String.eqb_eq in Ha, Hb. subst.
    rewrite String.eqb_refl in Hab. discriminate Hab.
  - intros a b. unfold __eq__, difference.
    cbn [height _compare_value is_none except_UnicodeError].
    unfold to_text. rewrite !Hok by reflexivity. cbn [bind].
    rewrite (String.eqb_sym (py_str (VInt b)) (py_str (VInt a))).
    destruct (py_str (VInt a) =? py_str (VInt b)) eqn:Hab.
    + apply String.eqb_eq, integer_text_injective in Hab. subst.
      rewrite Z.eqb_refl. reflexivity.
    + assert (Hne : a <> b).
      { intros ->. rewrite String.eqb_refl in Hab. discriminate Hab. }
      apply Z.eqb_neq in Hne. rewrite Hne.
      cbn [negb except_UnicodeError bind truthy].
      destruct (a =? 0)%Z eqn:Ha; cbn [negb]; [|reflexivity].
      destruct (b =? 0)%Z eqn:Hb; cbn [negb]; [|reflexivity].
      apply Z.eqb_eq in Ha, Hb. subst. discriminate Hne.
  - intros n. unfold __eq__, difference.
    cbn [height _compare_value is_none except_UnicodeError].
    unfold to_text. rewrite !Hok by reflexivity. cbn [bind].
    change (py_str (VStr (py_str (VInt n)))) with (py_str (VInt n)).
    rewrite String.eqb_refl. reflexivity.
Qed.

Lemma eq_scalars_witness :
  __eq__ never_fails (VStr EmptyString) (VStr "old") = Returns false
  /\ __eq__ never_fails (VInt 0) (VInt 5) = Returns false
  /\ __eq__ never_fails (VInt 5) (VStr "5") = Returns true.
Proof.
  destruct (eq_scalars never_fails (fun v _ => eq_refl)) as (Ht & Hi & Hn).
  split; [|split].
  - exact (Ht EmptyString "old").
  - exact (Hi 0%Z 5%Z).
  - exact (Hn 5%Z).
Defined.

(** X7: [==] is reflexive on every tree whose lists are homogeneous: the
    repository's [assertEqual(request, request)]. *)
Theorem eq_reflexive (unicode_fails : value -> bool) (s : shape)
    (tree : value) :
  has_shape s tree = true ->
  __eq__ unicode_fails tree tree = Returns true.
Proof.
  intros Hs.
  pose proof (compare_value_shaped unicode_fails (S (height tree)) s tree tree
                (Nat.lt_succ_diag_r _) Hs Hs) as Hret.
  fold (difference unicode_fails tree tree) in Hret.
  destruct (difference unicode_fails tree tree) as [diff| | |] eqn:Hd;
    try contradiction.
  pose proof (compare_value_same unicode_fails _ _ _ Hd) as Hfalsy.
  unfold __eq__. rewrite Hd. simpl. rewrite Hfalsy. reflexivity.
Qed.

Lemma eq_reflexive_witness :
  __eq__ never_fails
    (VDict [("foo", VDict [("quiet", VDict [("tree", VStr "test")]);
                           ("bar", VStr "baz")]);
            ("test", VStr "original")])
    (VDict [("foo", VDict [("quiet", VDict [("tree", VStr "test")]);
                           ("bar", VStr "baz")]);
            ("test", VStr "original")])
  = Returns true.
Proof.
  apply (eq_reflexive never_fails
           (SDict [("foo", SDict [("quiet", SDict [("tree", SScalar)]);
                                  ("bar", SScalar)]);
                   ("test", SScalar)])).
  reflexivity.
Defined.

(** X8: when the comparison returns in both directions, [==] is symmetric,
    and [!=] is its negation. *)
Theorem eq_symmetric (unicode_fails : value -> bool) (a b d1 d2 : value) :
  difference unicode_fails a b = Returns d1 ->
  difference unicode_fails b a = Returns d2 ->
  __eq__ unicode_fails a b = Returns (empty d1 && empty d2)
  /\ __eq__ unicode_fails b a = __eq__ unicode_fails a b
  /\ __ne__ unicode_fails a b = Returns (negb (empty d1 && empty d2)).
Proof.
  intros H1 H2. unfold __ne__, __eq__, empty. rewrite H1, H2. simpl.
  destruct (truthy d1), (truthy d2); simpl; auto.
Qed.

Lemma eq_symmetric_witness :
  __eq__ never_fails (VDict [("foo", VList [])])
    (VDict [("foo", VList [VStr "baz"])])
  = Returns false
  /\ __eq__ never_fails (VDict [("foo", VList [VStr "baz"])])
       (VDict [("foo", VList [])])
     = __eq__ never_fails (VDict [("foo", VList [])])
         (VDict [("foo", VList [VStr "baz"])]).
Proof.
  destruct (eq_symmetric never_fails (VDict [("foo", VList [])])
              (VDict [("foo", VList [VStr "baz"])])
              (VDict []) (VDict [("foo", VList [VStr "baz"])])
              eq_refl eq_refl) as (H1 & H2 & _).
  split; [exact H1 | exact H2].
Defined.

(* ------------------------------------------------------------------ *)
(** ** Normalization *)

Lemma convert_normalized (unicode_fails : value -> bool) (v : value) :
  forall v', _convert_value unicode_fails v = Returns v' ->
             normalized v' = true.
Proof.
  induction v as [| b | n | s | l IH | d IH] using value_induction;
    intros v' H;
    try (simpl in H; destruct (to_text unicode_fails _); try discriminate;
         simpl in H; injection H as <-; reflexivity).
  - apply convert_list in H as (l' & -> & Hall). simpl.
    induction Hall as [|x y l l' Hxy _ IHall]; [reflexivity|].
    inversion IH as [|? ? Hx Hl]; subst. simpl.
    rewrite (Hx _ Hxy), (IHall Hl). reflexivity.
  - apply convert_dict in H as (d' & -> & Hall). simpl.
    induction Hall as [|kv kv' d d' [_ Hkv] _ IHall]; [reflexivity|].
    inversion IH as [|? ? Hx Hd]; subst. simpl.
    rewrite (Hx _ Hkv), (IHall Hd). reflexivity.
Qed.

Lemma convert_of_normalized (unicode_fails : value -> bool) (v : value) :
  (forall s, unicode_fails (VStr s) = false) ->
  normalized v = true ->
  _convert_value unicode_fails v = Returns v.
Proof.
  intros Hok.
  induction v as [| b | n | s | l IH | d IH] using value_induction;
    intros Hn; try discriminate.
  - simpl. unfold to_text. rewrite Hok. reflexivity.
  - apply convert_list. exists l. split; [reflexivity|].
    simpl in Hn. induction IH as [|x l Hx _ IHl]; constructor.
    + apply Hx. simpl in Hn. apply andb_true_iff in Hn. apply Hn.
    + apply IHl. simpl in Hn. apply andb_true_iff in Hn. apply Hn.
  - simpl.
    assert (Hall : for_each (fun kv => c <- _convert_value unicode_fails (snd kv) ;;
                                       Returns (fst kv, c)) d = Returns d).
    { apply for_each_Forall2. simpl in Hn.
      induction IH as [|[k x] d Hx _ IHd]; constructor.
      - simpl in *. apply andb_true_iff in Hn. rewrite (Hx (proj1 Hn)).
        reflexivity.
      - apply IHd. simpl in Hn. apply andb_true_iff in Hn. apply Hn. }
    rewrite Hall. reflexivity.
Qed.

(** X9: [_convert_value] brings a tree into text form: every leaf of its
    result is a text, the nesting is kept, and converting the result again
    changes nothing. *)
Theorem convert_value_idempotent (unicode_fails : value -> bool)
    (v v' : value) :
  (forall s, unicode_fails (VStr s) = false) ->
  _convert_value unicode_fails v = Returns v' ->
  normalized v' = true
  /\ height v' = height v
  /\ _convert_value unicode_fails v' = Returns v'.
Proof.
  intros Hok H.
  pose proof (convert_normalized unicode_fails v v' H) as Hn.
  split; [exact Hn|]. split.
  - apply (convert_height unicode_fails v v' H).
  - apply convert_of_normalized; assumption.
Qed.

Lemma convert_value_idempotent_witness :
  _convert_value never_fails
    (VList [VStr "1"; VStr "True"; VDict [("k", VStr "None")]])
  = Returns (VList [VStr "1"; VStr "True"; VDict [("k", VStr "None")]]).
Proof.
  apply (convert_value_idempotent never_fails
           (VList [VInt 1; VBool true; VDict [("k", VNone)]])).
  - reflexivity.
  - reflexivity.
Defined.

(* ================================================================== *)
(** * Further properties of [navigate_hash] *)

(** X10: with a non-empty path [navigate_hash] returns or raises TypeError
    (it met a number or [True], or found the key in a list or in a text);
    the membership test before [source[key]] rules out KeyError, and the
    path is only indexed while keys are left, which rules out
    IndexError. *)
Theorem navigate_hash_exceptions (path : list string) :
  forall source default,
    path <> [] ->
    (exists result, navigate_hash source path default = Returns result)
    \/ navigate_hash source path default = Raises TypeError.
Proof.
  induction path as [|key path' IH]; intros source default Hpath;
    [contradiction|].
  simpl. destruct (truthy source) eqn:Htruthy; simpl; [|eauto].
  destruct source as [| b | n | s | l | d]; simpl; auto.
  - destruct (substring_of key s); simpl; eauto.
  - destruct (existsb _ l); simpl; eauto.
  - rewrite key_in_keys.
    destruct (dict_get key d) as [result|]; simpl; [|eauto].
    destruct path' as [|key' path'']; [eauto|].
    apply IH. discriminate.
Qed.

Lemma navigate_hash_exceptions_witness :
  (exists result,
      navigate_hash (VDict [("meta", VInt 5)]) ["meta"; "pagination"] VNone
      = Returns result)
  \/ navigate_hash (VDict [("meta", VInt 5)]) ["meta"; "pagination"] VNone
     = Raises TypeError.
Proof.
  apply (navigate_hash_exceptions ["meta"; "pagination"]
           (VDict [("meta", VInt 5)]) VNone).
  discriminate.
Defined.

(** X11: a path can be followed in two legs: when no key of the first leg is
    missing, following [p ++ q] is following [q] from where [p] leads. *)
Theorem navigate_hash_app (p : list string) :
  forall q source default,
    p <> [] -> q <> [] ->
    missing_in_container source p = false ->
    navigate_hash source (p ++ q) default
    = (x <- navigate_hash source p default ;; navigate_hash x q default).
Proof.
  induction p as [|key p' IH]; intros q source default Hp Hq Hmiss;
    [contradiction|].
  simpl in Hmiss. cbn [app navigate_hash].
  destruct (truthy source) eqn:Htruthy; cbn [negb].
  - simpl in Hmiss.
    destruct source as [| b | n | s | l | d]; try reflexivity.
    + simpl in *. destruct (substring_of key s); [reflexivity | discriminate].
    + simpl in *. destruct (existsb _ l); [reflexivity | discriminate].
    + cbn [py_contains bind]. rewrite key_in_keys.
      unfold py_getitem.
      destruct (dict_get key d) as [result|]; [|discriminate].
      cbn [negb bind].
      destruct p' as [|key' p''].
      * cbn [app]. destruct q as [|k q']; [contradiction | reflexivity].
      * cbn [app]. apply IH; [discriminate | exact Hq | exact Hmiss].
  - cbn [bind]. destruct q as [|k q']; [contradiction | reflexivity].
Qed.

Lemma navigate_hash_app_witness :
  navigate_hash
    (VDict [("meta", VDict [("pagination", VDict [("next-page", VInt 2)])])])
    (["meta"] ++ ["pagination"; "next-page"]) VNone
  = (x <- navigate_hash
            (VDict [("meta",
                     VDict [("pagination", VDict [("next-page", VInt 2)])])])
            ["meta"] VNone ;;
     navigate_hash x ["pagination"; "next-page"] VNone).
Proof.
  apply (navigate_hash_app ["meta"] ["pagination"; "next-page"]);
    (discriminate || reflexivity).
Defined.

(* ================================================================== *)
(** * Further properties of the paged collection walker *)

Lemma length_update_nth {A : Type} (l : list A) :
  forall n a, List.length (update_nth n a l) = List.length l.
Proof.
  induction l as [|x l IH]; intros [|n] a; simpl; try reflexivity.
  rewrite IH. reflexivity.
Qed.

(** What the first statement of the loop body does to the state: it sends
    nothing, and touches no dictionary but a non-empty [params]. *)
Lemma page_number_effects (params : ref) (pageToken : string)
    (envelope : value) (w w1 : world) (o : outcome ref) :
  page_number params pageToken envelope w = (o, w1) ->
  sent w1 = sent w
  /\ List.length (heap w) <= List.length (heap w1)
  /\ (forall l, l < List.length (heap w) ->
                params <> Some l \/ nth_error (heap w) l = Some [] ->
                nth_error (heap w1) l = nth_error (heap w) l)
  /\ (forall params', o = Returns params' ->
                      params' = params
                      \/ params' = Some (List.length (heap w))).
Proof.
  unfold page_number, mbind, ref_truthy, lift, ret, setitem, new_dict, deref.
  intros H.
  assert (Hfresh : forall page,
             (o, w1) = (Returns (Some (List.length (heap w))),
                        mkWorld (heap w ++ [[("page[number]", page)]]) (sent w)) ->
             sent w1 = sent w
             /\ List.length (heap w) <= List.length (heap w1)
             /\ (forall l, l < List.length (heap w) ->
                           params <> Some l
                           \/ nth_error (heap w) l = Some [] ->
                           nth_error (heap w1) l = nth_error (heap w) l)
             /\ (forall params', o = Returns params' ->
                                 params' = params
                                 \/ params' = Some (List.length (heap w)))).
  { intros page E. injection E as -> ->. simpl.
    split; [reflexivity|]. split; [rewrite length_app; lia|]. split.
    - intros l Hl _. rewrite nth_error_app1 by exact Hl. reflexivity.
    - intros params' E. injection E as <-. now right. }
  destruct (navigate_hash envelope ["meta"; "pagination"; pageToken] VNone)
    as [page| | |] eqn:Hpage.
  - destruct params as [a|].
    + destruct (nth_error (heap w) a) as [[|x d]|] eqn:Ha.
      * apply (Hfresh page). symmetry. exact H.
      * rewrite Ha in H. injection H as <- <-. simpl.
        split; [reflexivity|]. split; [rewrite length_update_nth; lia|].
        split.
        -- intros l Hl [Hne | Hempty].
           ++ apply nth_error_update_nth_other. congruence.
           ++ apply nth_error_update_nth_other. congruence.
        -- intros params' E. injection E as <-. now left.
      * apply (Hfresh page). symmetry. exact H.
    + apply (Hfresh page). symmetry. exact H.
  - destruct params as [a|];
      [destruct (nth_error (heap w) a) as [[|x d]|]|];
      injection H as <- <-;
      (split; [reflexivity|]; split; [lia|]; split; [reflexivity|];
       intros params' E; discriminate E).
  - destruct params as [a|];
      [destruct (nth_error (heap w) a) as [[|x d]|]|];
      injection H as <- <-;
      (split; [reflexivity|]; split; [lia|]; split; [reflexivity|];
       intros params' E; discriminate E).
  - destruct params as [a|];
      [destruct (nth_error (heap w) a) as [[|x d]|]|];
      injection H as <- <-;
      (split; [reflexivity|]; split; [lia|]; split; [reflexivity|];
       intros params' E; discriminate E).
Qed.

Lemma navigate_hash_not_fatal (path : list string) (source default : value)
    (msg : failure) :
  navigate_hash source path default <> Fails msg.
Proof.
  revert source. induction path as [|key rest IH]; intros source H.
  - simpl in H. destruct (negb (truthy source)); discriminate H.
  - simpl in H. destruct (negb (truthy source)); [discriminate H|].
    destruct (py_contains key source) as [present| | |] eqn:Hin;
      try discriminate H.
    + simpl in H. destruct (negb present); [discriminate H|].
      destruct (py_getitem source key) as [result| | |] eqn:Hget;
        try discriminate H.
      * simpl in H. destruct rest; [discriminate H|]. eapply IH, H.
      * destruct source as [| | | |l|d]; simpl in Hget; try discriminate Hget.
        destruct (dict_get key d); discriminate Hget.
    + destruct source; discriminate Hin.
Qed.

Lemma page_number_not_fatal (params : ref) (pageToken : string)
    (envelope : value) (w w1 : world) (msg : failure) :
  page_number params pageToken envelope w <> (Fails msg, w1).
Proof.
  unfold page_number, mbind, ref_truthy, lift, ret, setitem, new_dict, deref.
  destruct (navigate_hash envelope ["meta"; "pagination"; pageToken] VNone)
    as [page| | |] eqn:Hpage.
  - destruct params as [a|];
      [destruct (nth_error (heap w) a) as [[|x d]|] eqn:Ha|];
      cbn; try rewrite Ha; intros H; discriminate H.
  - destruct params as [a|];
      [destruct (nth_error (heap w) a) as [[|x d]|] eqn:Ha|];
      cbn; try rewrite Ha; intros H; discriminate H.
  - exfalso. revert Hpage. apply navigate_hash_not_fatal.
  - destruct params as [a|];
      [destruct (nth_error (heap w) a) as [[|x d]|] eqn:Ha|];
      cbn; try rewrite Ha; intros H; discriminate H.
Qed.

Lemma py_add_not_fatal (a b : value) (msg : failure) :
  py_add a b <> Fails msg.
Proof.
  destruct a as [| [] | | | |], b as [| [] | | | |]; intros H;
    discriminate H.
Qed.

Lemma add_items_not_fatal (array_name : string) (resp items : value)
    (w w1 : world) (msg : failure) :
  add_items array_name resp items w <> (Fails msg, w1).
Proof.
  unfold add_items, mbind, lift, ret, py_get, py_get_default.
  destruct resp as [| | | | |d]; try (intros H; discriminate H).
  destruct (truthy _); [|intros H; discriminate H].
  destruct (py_add items _) eqn:Hadd; intros H; try discriminate H.
  eapply py_add_not_fatal, Hadd.
Qed.

Section WalkerEffects.

Variable server : nat -> request -> response.
Variable callback : response -> outcome value.
Variables link array_name pageToken : string.

(** What a run of the loop does, whatever its outcome. *)
Lemma paging_effects (fuel : nat) :
  forall w params envelope items o w',
    paging server fuel link callback params array_name pageToken
      envelope items w = (o, w') ->
    exists later,
      sent w' = sent w ++ later
      /\ Forall (fun rq => url rq = link) later
      /\ List.length later <= fuel
      /\ List.length (heap w) <= List.length (heap w')
      /\ (forall l, l < List.length (heap w) ->
                    params <> Some l \/ nth_error (heap w) l = Some [] ->
                    nth_error (heap w') l = nth_error (heap w) l)
      /\ (forall msg, o = Fails msg ->
                      exists front rq,
                        later = front ++ [rq]
                        /\ callback (server (List.length (sent w ++ front)) rq)
                           = Fails msg).
Proof.
  induction fuel as [|fuel IH]; intros w params envelope items o w' Hrun.
  - injection Hrun as <- <-. exists []. rewrite app_nil_r.
    repeat split; auto. intros msg E. discriminate E.
  - assert (Hhere : forall o0, (forall msg, o0 <> Fails msg) ->
               (o, w') = (o0, w) ->
               exists later,
                 sent w' = sent w ++ later
                 /\ Forall (fun rq => url rq = link) later
                 /\ List.length later <= S fuel
                 /\ List.length (heap w) <= List.length (heap w')
                 /\ (forall l, l < List.length (heap w) ->
                               params <> Some l
                               \/ nth_error (heap w) l = Some [] ->
                               nth_error (heap w') l = nth_error (heap w) l)
                 /\ (forall msg, o = Fails msg ->
                                 exists front rq,
                                   later = front ++ [rq]
                                   /\ callback
                                        (server (List.length (sent w ++ front))
                                           rq)
                                      = Fails msg)).
    { intros o0 Ho0 E. injection E as -> ->. exists []. rewrite app_nil_r.
      repeat split; auto; try (simpl; lia).
      intros msg E. exfalso. eapply Ho0, E. }
    cbn [paging] in Hrun. unfold mbind at 1 in Hrun. unfold lift at 1 in Hrun.
    destruct (navigate_hash envelope ["meta"; "pagination"; pageToken] VNone)
      as [c| | |] eqn:Hnav;
      try (eapply Hhere; [|symmetry; exact Hrun]; intros msg E;
           discriminate E).
    2:{ exfalso. eapply navigate_hash_not_fatal, Hnav. }
    destruct (truthy c);
      [|eapply Hhere; [|symmetry; exact Hrun]; intros msg E; discriminate E].
    unfold mbind at 1 in Hrun.
    destruct (page_number params pageToken envelope w) as [op w1] eqn:Hpage.
    destruct (page_number_effects params pageToken envelope w w1 op Hpage)
      as (Hsent1 & Hlen1 & Hframe1 & Hparams1).
    assert (Hstop1 : forall o0, (forall msg, o0 <> Fails msg) ->
               (o, w') = (o0, w1) ->
               exists later,
                 sent w' = sent w ++ later
                 /\ Forall (fun rq => url rq = link) later
                 /\ List.length later <= S fuel
                 /\ List.length (heap w) <= List.length (heap w')
                 /\ (forall l, l < List.length (heap w) ->
                               params <> Some l
                               \/ nth_error (heap w) l = Some [] ->
                               nth_error (heap w') l = nth_error (heap w) l)
                 /\ (forall msg, o = Fails msg ->
                                 exists front rq,
                                   later = front ++ [rq]
                                   /\ callback
                                        (server (List.length (sent w ++ front))
                                           rq)
                                      = Fails msg)).
    { intros o0 Ho0 E. injection E as -> ->. exists [].
      rewrite app_nil_r. repeat split; auto; try (simpl; lia).
      intros msg E. exfalso. eapply Ho0, E. }
    destruct op as [params'| | |];
      try (eapply Hstop1; [|symmetry; exact Hrun]; intros msg E;
           discriminate E).
    2:{ exfalso. eapply page_number_not_fatal, Hpage. }
    unfold mbind at 1 in Hrun. unfold get at 1 in Hrun.
    set (rq := mkRequest link (deref w1 params')) in *.
    set (w2 := mkWorld (heap w1) (sent w1 ++ [rq])) in *.
    assert (Hstop2 : forall o0,
               (forall msg, o0 = Fails msg ->
                            callback (server (List.length (sent w1)) rq)
                            = Fails msg) ->
               (o, w') = (o0, w2) ->
               exists later,
                 sent w' = sent w ++ later
                 /\ Forall (fun rq => url rq = link) later
                 /\ List.length later <= S fuel
                 /\ List.length (heap w) <= List.length (heap w')
                 /\ (forall l, l < List.length (heap w) ->
                               params <> Some l
                               \/ nth_error (heap w) l = Some [] ->
                               nth_error (heap w') l = nth_error (heap w) l)
                 /\ (forall msg, o = Fails msg ->
                                 exists front rq,
                                   later = front ++ [rq]
                                   /\ callback
                                        (server (List.length (sent w ++ front))
                                           rq)
                                      = Fails msg)).
    { intros o0 Ho0 E. injection E as -> ->. exists [rq]. simpl.
      rewrite Hsent1. repeat split; auto; try lia.
      intros msg E. exists [], rq. rewrite app_nil_r, <- Hsent1.
      split; [reflexivity | apply Ho0, E]. }
    unfold mbind at 1 in Hrun. unfold lift at 1 in Hrun.
    destruct (callback (server (List.length (sent w1)) rq)) as [next| | |]
      eqn:Hcb;
      try (eapply Hstop2; [|symmetry; exact Hrun]; intros msg' E;
           (discriminate E || exact E)).
    unfold mbind at 1 in Hrun.
    pose proof (add_items_world array_name next items w2) as Hworld.
    destruct (add_items array_name next items w2) as [oi w3] eqn:Hadd.
    simpl in Hworld. subst w3.
    destruct oi as [items'| | |];
      try (eapply Hstop2; [|symmetry; exact Hrun]; intros msg E;
           discriminate E).
    2:{ exfalso. eapply add_items_not_fatal, Hadd. }
    destruct (IH w2 params' next items' o w' Hrun)
      as (later & H1 & H2 & H3 & H4 & H5 & H6).
    exists (rq :: later). split; [|split; [|split; [|split; [|split]]]].
    + rewrite H1. unfold w2. simpl. rewrite Hsent1, <- app_assoc. reflexivity.
    + constructor; [reflexivity | exact H2].
    + simpl. lia.
    + unfold w2 in H4. simpl in H4. lia.
    + intros l Hl Hcond. unfold w2 in H5. simpl in H5.
      rewrite H5; [apply Hframe1; assumption | lia |].
      destruct (Hparams1 params' eq_refl) as [-> | ->].
      * destruct Hcond as [Hne | Hempty]; [now left|].
        right. rewrite Hframe1; [exact Hempty | exact Hl | now right].
      * left. intros E. injection E as E. lia.
    + intros msg E. destruct (H6 msg E) as (front & rq' & -> & Hfail).
      exists (rq :: front), rq'. split; [reflexivity|].
      unfold w2 in Hfail. simpl in Hfail.
      rewrite Hsent1, <- app_assoc in Hfail. exact Hfail.
Qed.

Lemma first_items_not_fatal (resp : value) (w w1 : world) (msg : failure) :
  first_items array_name resp w <> (Fails msg, w1).
Proof.
  unfold first_items, mbind, lift, ret, py_get, py_get_default.
  destruct resp as [| | | | |d]; try (intros H; discriminate H).
  destruct (truthy _); intros H; discriminate H.
Qed.

(** What a call of [HcpSession.list] does, whatever its outcome. *)
Lemma list_effects (fuel : nat) (w w' : world) (params : ref)
    (o : outcome value) :
  HcpSession_list server fuel link callback params array_name pageToken w
  = (o, w') ->
  exists later,
    sent w' = sent w ++ mkRequest link (deref w params) :: later
    /\ Forall (fun rq => url rq = link) later
    /\ List.length later <= fuel
    /\ List.length (heap w) <= List.length (heap w')
    /\ (forall l, l < List.length (heap w) ->
                  params <> Some l \/ nth_error (heap w) l = Some [] ->
                  nth_error (heap w') l = nth_error (heap w) l)
    /\ (forall msg, o = Fails msg ->
                    exists front rq,
                      mkRequest link (deref w params) :: later = front ++ [rq]
                      /\ callback (server (List.length (sent w ++ front)) rq)
                         = Fails msg).
Proof.
  intros Hrun. unfold HcpSession_list in Hrun.
  unfold mbind at 1 in Hrun. unfold get at 1 in Hrun.
  set (rq := mkRequest link (deref w params)) in *.
  set (w1 := mkWorld (heap w) (sent w ++ [rq])) in *.
  assert (Hstop : forall o0,
             (forall msg, o0 = Fails msg ->
                          callback (server (List.length (sent w)) rq)
                          = Fails msg) ->
             (o, w') = (o0, w1) ->
             exists later,
               sent w' = sent w ++ rq :: later
               /\ Forall (fun rq => url rq = link) later
               /\ List.length later <= fuel
               /\ List.length (heap w) <= List.length (heap w')
               /\ (forall l, l < List.length (heap w) ->
                             params <> Some l
                             \/ nth_error (heap w) l = Some [] ->
                             nth_error (heap w') l = nth_error (heap w) l)
               /\ (forall msg, o = Fails msg ->
                               exists front rq',
                                 rq :: later = front ++ [rq']
                                 /\ callback
                                      (server (List.length (sent w ++ front))
                                         rq')
                                    = Fails msg)).
  { intros o0 Ho0 E. injection E as -> ->. exists []. simpl.
    repeat split; auto; try lia.
    intros msg E. exists [], rq. rewrite app_nil_r.
    split; [reflexivity | apply Ho0, E]. }
  unfold mbind at 1 in Hrun. unfold lift at 1 in Hrun.
  destruct (callback (server (List.length (sent w)) rq)) as [first| | |]
    eqn:Hcb;
    try (eapply Hstop; [|symmetry; exact Hrun]; intros msg' E;
         (discriminate E || exact E)).
  unfold mbind at 1 in Hrun.
  pose proof (first_items_world array_name first w1) as Hworld.
  destruct (first_items array_name first w1) as [oi w2] eqn:Hfirst.
  simpl in Hworld. subst w2.
  destruct oi as [items| | |];
    try (eapply Hstop; [|symmetry; exact Hrun]; intros msg E;
         discriminate E).
  2:{ exfalso. eapply first_items_not_fatal, Hfirst. }
  destruct (paging_effects fuel w1 params first items o w' Hrun)
    as (later & H1 & H2 & H3 & H4 & H5 & H6).
  exists later. split; [|split; [|split; [|split; [|split]]]].
  - rewrite H1. unfold w1. simpl. rewrite <- app_assoc. reflexivity.
  - exact H2.
  - exact H3.
  - exact H4.
  - exact H5.
  - intros msg E. destruct (H6 msg E) as (front & rq' & -> & Hfail).
    exists (rq :: front), rq'. split; [reflexivity|].
    unfold w1 in Hfail. simpl in Hfail.
    rewrite <- app_assoc in Hfail. exact Hfail.
Qed.

End WalkerEffects.

(* ------------------------------------------------------------------ *)
(** ** The requests of a listing *)



(** X13: [HcpSession.list] writes to no dictionary but a non-empty
    [params] of its caller: every other dictionary object that exists
    before the call, an empty [params] included, is the same after it,
    and no object is removed. *)
Theorem list_frame (server : nat -> request -> response)
    (callback : response -> outcome value)
    (link array_name pageToken : string) (fuel : nat) (params : ref)
    (w w' : world) (o : outcome value) (l : nat) :
  HcpSession_list server fuel link callback params array_name pageToken w
  = (o, w') ->
  l < List.length (heap w) ->
  params <> Some l \/ nth_error (heap w) l = Some [] ->
  nth_error (heap w') l = nth_error (heap w) l
  /\ List.length (heap w) <= List.length (heap w').
Proof.
  intros Hrun Hl Hcond.
  destruct (list_effects server callback link array_name pageToken fuel
              w w' params o Hrun) as (later & _ & _ & _ & H4 & H5 & _).
  split; [apply H5; assumption | exact H4].
Qed.

Lemma list_frame_witness :
  nth_error
    (heap (snd (HcpSession_list two_pages 5 "u" (return_if_object false)
                  (Some 0) "data" "next-page"
                  (mkWorld [[("filter[names]", VStr "x")];
                            [("page[number]", VInt 7)]] []))))
    1
  = Some [("page[number]", VInt 7)].
Proof.
  apply (list_frame two_pages (return_if_object false) "u" "data"
           "next-page" 5 (Some 0)
           (mkWorld [[("filter[names]", VStr "x")];
                     [("page[number]", VInt 7)]] [])
           (snd (HcpSession_list two_pages 5 "u" (return_if_object false)
                   (Some 0) "data" "next-page"
                   (mkWorld [[("filter[names]", VStr "x")];
                             [("page[number]", VInt 7)]] [])))
           (fst (HcpSession_list two_pages 5 "u" (return_if_object false)
                   (Some 0) "data" "next-page"
                   (mkWorld [[("filter[names]", VStr "x")];
                             [("page[number]", VInt 7)]] [])))
           1).
  - reflexivity.
  - simpl. lia.
  - left. discriminate.
Defined.



(* ================================================================== *)
(** * Properties of the resource modules *)

Lemma truthy_dict_set (c : bool) (k : string) (v : value) (acc : dict) :
  truthy (VDict (if c then dict_set k v acc else acc))
  = c || truthy (VDict acc).
Proof.
  destruct c; [|reflexivity].
  destruct acc as [|[k' w] rest]; simpl; [reflexivity|].
  destruct (k' =? k); reflexivity.
Qed.

Lemma existsb_ext_In {A : Type} (f g : A -> bool) (l : list A) :
  (forall a, In a l -> f a = g a) -> existsb f l = existsb g l.
Proof.
  intros H. induction l as [|x l IH]; simpl; [reflexivity|].
  rewrite H by (now left). rewrite IH; [reflexivity|].
  intros a Ha. apply H. now right.
Qed.

(** Whether the loop of [_compare_dicts] leaves a difference, when every
    comparison it makes returns. *)
Lemma each_key_truthy (compare : value -> value -> outcome value)
    (req_dict rd : dict) (req_keys : list string) :
  (forall key, In key req_keys ->
               is_none (value_of rd key) = false ->
               exists diff,
                 compare (value_of req_dict key) (value_of rd key)
                 = Returns diff) ->
  forall difference,
  exists out,
    each_key compare req_keys req_dict (VDict rd) difference = Returns out
    /\ truthy (VDict out)
       = truthy (VDict difference)
         || existsb (fun key =>
                       negb (is_none (value_of rd key))
                       && negb (item_matches compare (value_of req_dict key)
                                  (value_of rd key))) req_keys.
Proof.
  induction req_keys as [|key rest IH]; intros Hret difference.
  - exists difference. split; [reflexivity|]. simpl.
    rewrite orb_false_r. reflexivity.
  - assert (Hrest : forall k, In k rest ->
                      is_none (value_of rd k) = false ->
                      exists diff,
                        compare (value_of req_dict k) (value_of rd k)
                        = Returns diff)
      by (intros k Hk; apply Hret; now right).
    cbn [each_key existsb]. unfold py_get, py_get_default. cbn [bind].
    fold (value_of rd key). fold (value_of req_dict key).
    destruct (is_none (value_of rd key)) eqn:Hnone; cbn [negb andb orb].
    + apply IH, Hrest.
    + destruct (Hret key (or_introl eq_refl) Hnone) as [diff Hdiff].
      rewrite Hdiff. cbn [bind].
      destruct (IH Hrest (if truthy diff
                          then dict_set key diff difference
                          else difference)) as (out & Hout & Htruthy).
      exists out. split; [exact Hout|].
      rewrite Htruthy, truthy_dict_set.
      unfold item_matches, empty. rewrite Hdiff.
      destruct (truthy diff), (truthy (VDict difference)); reflexivity.
Qed.

(** Whether a mapping differs from another, when the comparisons of its
    values return. *)
Lemma difference_mapping_truthy (unicode_fails : value -> bool)
    (d rd : dict) :
  (forall key, In key (keys d) ->
               is_none (value_of rd key) = false ->
               exists diff,
                 difference unicode_fails (value_of d key) (value_of rd key)
                 = Returns diff) ->
  exists out,
    difference unicode_fails (VDict d) (VDict rd) = Returns (VDict out)
    /\ truthy (VDict out)
       = existsb (fun key =>
                    negb (is_none (value_of rd key))
                    && negb (matches unicode_fails (value_of d key)
                               (value_of rd key))) (keys d).
Proof.
  intros Hret. rewrite difference_of_mapping by reflexivity.
  unfold _compare_dicts.
  destruct (each_key_truthy
              (_compare_value unicode_fails (height (VDict d))) d rd (keys d))
    with (difference := @nil (string * value)) as (out & Hout & Htruthy).
  { intros key Hkey Hnone.
    rewrite compare_value_difference by (apply value_of_height, Hkey).
    apply Hret; assumption. }
  exists out. rewrite Hout. split; [reflexivity|].
  rewrite Htruthy. cbn [truthy orb].
  apply existsb_ext_In. intros key Hkey.
  rewrite item_matches_difference by (apply value_of_height, Hkey).
  reflexivity.
Qed.

Section ModuleComparisons.

Variable unicode_fails : value -> bool.
Hypothesis scalars_convert :
  forall v, scalar v = true -> unicode_fails v = false.

Lemma difference_texts (a b : string) :
  difference unicode_fails (VStr a) (VStr b)
  = Returns (if a =? b then VNone else VStr a).
Proof.
  unfold difference. simpl. unfold to_text.
  rewrite !scalars_convert by reflexivity. simpl.
  destruct (a =? b); reflexivity.
Qed.

Lemma difference_booleans (a b : bool) :
  difference unicode_fails (VBool a) (VBool b)
  = Returns (if Bool.eqb a b then VNone else VBool true).
Proof.
  unfold difference. simpl. unfold _compare_boolean, to_text.
  rewrite !scalars_convert by reflexivity.
  destruct a, b; reflexivity.
Qed.

Lemma difference_of_none (v : value) :
  scalar v = true ->
  difference unicode_fails VNone v = Returns VNone.
Proof.
  intros Hv. unfold difference. simpl. unfold to_text.
  rewrite !scalars_convert by (reflexivity || exact Hv).
  destruct (is_none v); [reflexivity|]. simpl.
  destruct (negb _); reflexivity.
Qed.

Lemma texts_differ (a b : string) :
  negb (matches unicode_fails (VStr a) (VStr b))
  || negb (matches unicode_fails (VStr b) (VStr a))
  = negb (a =? b).
Proof.
  unfold matches. rewrite !difference_texts, (String.eqb_sym b a).
  destruct (a =? b) eqn:E; [reflexivity|]. unfold empty. cbn [truthy].
  destruct (a =? EmptyString) eqn:Ea; [|reflexivity].
  destruct (b =? EmptyString) eqn:Eb; [|reflexivity].
  apply String.eqb_eq in Ea, Eb. subst. discriminate E.
Qed.

Lemma booleans_differ (a b : bool) :
  negb (matches unicode_fails (VBool a) (VBool b))
  || negb (matches unicode_fails (VBool b) (VBool a))
  = negb (Bool.eqb a b).
Proof.
  unfold matches. rewrite !difference_booleans.
  destruct a, b; reflexivity.
Qed.

End ModuleComparisons.

(* ------------------------------------------------------------------ *)
(** ** [hcp_terraform_project] *)

Lemma project_request_shape (params : dict) :
  hcp_terraform_project.resource_to_request params
  = VDict [("attributes",
            VDict [("name", value_of params "name");
                   ("description", value_of params "description")]);
           ("type", VStr "projects")].
Proof. reflexivity. Qed.

(** X15: the loop of [resource_to_request] that is to clear the entries
    with a null value removes nothing, whatever the parameters are: it
    only looks at the two top-level entries, which are never empty. A
    description that was not given stays in the request, as null. *)
Theorem project_request_clears_nothing (params : dict) :
  hcp_terraform_project.resource_to_request params
  = VDict [("attributes",
            VDict [("name", value_of params "name");
                   ("description", value_of params "description")]);
           ("type", VStr "projects")]
  /\ navigate_hash (hcp_terraform_project.resource_to_request params)
       ["attributes"; "description"] (VStr "absent")
     = Returns (value_of params "description").
Proof. split; reflexivity. Qed.

(** X16: [is_different] of [hcp_terraform_project] is exact on the name
    and the description: for a project with a name and a description
    (null counts as the empty text), and a module called with a name and a
    description, it answers true exactly when one of the two differs. *)
Theorem project_is_different_exact (unicode_fails : value -> bool)
    (params r a : dict) (n rn d rd : string) :
  (forall s, unicode_fails (VStr s) = false) ->
  value_of params "name" = VStr n ->
  value_of params "description" = VStr d ->
  value_of r "attributes" = VDict a ->
  value_of a "name" = VStr rn ->
  py_or (value_of a "description") (VStr EmptyString) = VStr rd ->
  hcp_terraform_project.is_different unicode_fails params (VDict r)
  = Returns (negb (n =? rn) || negb (d =? rd)).
Proof.
  intros Huf Hn Hd Ha Hrn Hrd.
  unfold hcp_terraform_project.is_different,
    hcp_terraform_project.response_to_hash.
  rewrite project_request_shape.
  unfold py_get, py_get_default.
  fold (value_of r "attributes"). rewrite Ha. cbn [bind].
  fold (value_of a "name"). fold (value_of a "description").
  rewrite Hn, Hd, Hrn, Hrd.
  unfold __ne__, __eq__, difference.
  cbn [height map snd fold_right Nat.max _compare_value is_none].
  unfold _compare_dicts, keys. cbn. unfold to_text. rewrite !Huf. cbn.
  rewrite (String.eqb_sym rn n), (String.eqb_sym rd d).
  destruct (n =? rn) eqn:En; destruct (d =? rd) eqn:Ed;
    try (apply String.eqb_eq in En; subst rn);
    try (apply String.eqb_eq in Ed; subst rd);
    cbn;
    destruct (n =? EmptyString) eqn:En0;
    try (destruct (rn =? EmptyString) eqn:Ern0);
    destruct (d =? EmptyString) eqn:Ed0;
    try (destruct (rd =? EmptyString) eqn:Erd0);
    cbn; try reflexivity;
    repeat match goal with
           | H : (_ =? EmptyString) = true |- _ =>
               apply String.eqb_eq in H; subst
           end;
    discriminate.
Qed.

Lemma project_is_different_exact_witness :
  hcp_terraform_project.is_different never_fails
    [("state", VStr "present"); ("name", VStr "web");
     ("description", VStr "shop")]
    (VDict [("id", VStr "prj-1");
            ("attributes", VDict [("name", VStr "web");
                                  ("description", VNone)])])
  = Returns (negb ("web" =? "web") || negb ("shop" =? EmptyString)).
Proof.
  apply (project_is_different_exact never_fails
           [("state", VStr "present"); ("name", VStr "web");
            ("description", VStr "shop")]
           [("id", VStr "prj-1");
            ("attributes", VDict [("name", VStr "web");
                                  ("description", VNone)])]
           [("name", VStr "web"); ("description", VNone)]
           "web" "web" "shop" EmptyString);
    reflexivity.
Defined.

(** X17: when the module is called without a description (null),
    [is_different] of [hcp_terraform_project] never reports the
    description: it answers true exactly when the name differs. *)
Theorem project_is_different_without_description
    (unicode_fails : value -> bool) (params r a : dict) (n rn rd : string) :
  (forall s, unicode_fails (VStr s) = false) ->
  value_of params "name" = VStr n ->
  value_of params "description" = VNone ->
  value_of r "attributes" = VDict a ->
  value_of a "name" = VStr rn ->
  py_or (value_of a "description") (VStr EmptyString) = VStr rd ->
  hcp_terraform_project.is_different unicode_fails params (VDict r)
  = Returns (negb (n =? rn)).
Proof.
  intros Huf Hn Hd Ha Hrn Hrd.
  unfold hcp_terraform_project.is_different,
    hcp_terraform_project.response_to_hash.
  rewrite project_request_shape.
  unfold py_get, py_get_default.
  fold (value_of r "attributes"). rewrite Ha. cbn [bind].
  fold (value_of a "name"). fold (value_of a "description").
  rewrite Hn, Hd, Hrn, Hrd.
  unfold __ne__, __eq__, difference.
  cbn [height map snd fold_right Nat.max _compare_value is_none].
  unfold _compare_dicts, keys. cbn. unfold to_text. rewrite !Huf.
  assert (Hnone : forall t : string,
             except_UnicodeError
               (a0 <- (if unicode_fails VNone
                       then Raises UnicodeError
                       else Returns (py_str VNone)) ;;
                b <- Returns (py_str (VStr t)) ;;
                if negb (a0 =? b) then Returns VNone else Returns VNone)
               (Returns VNone)
             = Returns VNone).
  { intros t. destruct (unicode_fails VNone); cbn; [reflexivity|].
    destruct (negb _); reflexivity. }
  rewrite Hnone. cbn. rewrite (String.eqb_sym rn n).
  destruct (n =? rn) eqn:En;
    try (apply String.eqb_eq in En; subst rn);
    cbn;
    destruct (n =? EmptyString) eqn:En0;
    try (destruct (rn =? EmptyString) eqn:Ern0);
    cbn; try reflexivity;
    repeat match goal with
           | H : (_ =? EmptyString) = true |- _ =>
               apply String.eqb_eq in H; subst
           end;
    discriminate.
Qed.

Lemma project_is_different_without_description_witness :
  hcp_terraform_project.is_different never_fails
    [("state", VStr "present"); ("name", VStr "web")]
    (VDict [("id", VStr "prj-1");
            ("attributes", VDict [("name", VStr "web");
                                  ("description", VStr "old")])])
  = Returns (negb ("web" =? "web")).
Proof.
  apply (project_is_different_without_description never_fails
           [("state", VStr "present"); ("name", VStr "web")]
           [("id", VStr "prj-1");
            ("attributes", VDict [("name", VStr "web");
                                  ("description", VStr "old")])]
           [("name", VStr "web"); ("description", VStr "old")]
           "web" "web" "old");
    reflexivity.
Defined.


(* ------------------------------------------------------------------ *)
(** ** [hcp_terraform_var] *)

(** [is_different] of [hcp_terraform_var], with the comparison of the
    value left open: [ev] says whether the two values agree in the two
    directions of the comparison. *)
Lemma var_is_different_fields (unicode_fails : value -> bool)
    (params r a : dict) (k v d c rk rd rc : string) (h s rh rs : bool)
    (rv : value) (ev : bool) :
  (forall x, scalar x = true -> unicode_fails x = false) ->
  value_of params "key" = VStr k ->
  value_of params "value" = VStr v ->
  value_of params "description" = VStr d ->
  value_of params "category" = VStr c ->
  value_of params "hcl" = VBool h ->
  value_of params "sensitive" = VBool s ->
  value_of r "attributes" = VDict a ->
  value_of a "key" = VStr rk ->
  value_of a "value" = rv ->
  value_of a "description" = VStr rd ->
  value_of a "category" = VStr rc ->
  value_of a "hcl" = VBool rh ->
  value_of a "sensitive" = VBool rs ->
  (exists diff, difference unicode_fails (VStr v) rv = Returns diff) ->
  (exists diff, difference unicode_fails rv (VStr v) = Returns diff) ->
  negb (is_none rv) && negb (matches unicode_fails (VStr v) rv)
  || negb (matches unicode_fails rv (VStr v)) = negb ev ->
  hcp_terraform_var.is_different unicode_fails params (VDict r)
  = Returns (negb ((k =? rk) && ev && (d =? rd) && (c =? rc)
                   && Bool.eqb h rh && Bool.eqb s rs)).
Proof.
  intros Huf Hk Hv Hd Hc Hh Hs Ha Hrk Hrv Hrd Hrc Hrh Hrs Hfwd Hbwd Hev.
  unfold hcp_terraform_var.is_different,
    hcp_terraform_var.response_to_hash,
    hcp_terraform_var.resource_to_request.
  unfold py_get, py_get_default.
  fold (value_of r "attributes"). rewrite Ha. cbn [bind].
  fold (value_of a "key"). fold (value_of a "value").
  fold (value_of a "description"). fold (value_of a "category").
  fold (value_of a "hcl"). fold (value_of a "sensitive").
  rewrite Hk, Hv, Hd, Hc, Hh, Hs, Hrk, Hrv, Hrd, Hrc, Hrh, Hrs.
  set (A := [("key", VStr k); ("value", VStr v); ("description", VStr d);
             ("category", VStr c); ("hcl", VBool h); ("sensitive", VBool s)]).
  set (RA := [("key", VStr rk); ("value", rv); ("description", VStr rd);
              ("category", VStr rc); ("hcl", VBool rh);
              ("sensitive", VBool rs)]).
  destruct (difference_mapping_truthy unicode_fails A RA)
    as (o1 & Ho1 & Ht1).
  { intros key Hkey _. simpl in Hkey.
    repeat (destruct Hkey as [<- | Hkey]); try contradiction;
      cbn [A RA value_of dict_get String.eqb Ascii.eqb Bool.eqb];
      rewrite ?(difference_texts unicode_fails Huf),
        ?(difference_booleans unicode_fails Huf); eauto. }
  destruct (difference_mapping_truthy unicode_fails RA A)
    as (o2 & Ho2 & Ht2).
  { intros key Hkey _. simpl in Hkey.
    repeat (destruct Hkey as [<- | Hkey]); try contradiction;
      cbn [A RA value_of dict_get String.eqb Ascii.eqb Bool.eqb];
      rewrite ?(difference_texts unicode_fails Huf),
        ?(difference_booleans unicode_fails Huf); eauto. }
  destruct (difference_mapping_truthy unicode_fails
              [("attributes", VDict A); ("type", VStr "vars")]
              [("attributes", VDict RA)]) as (O1 & HO1 & HT1).
  { intros key Hkey Hnone. simpl in Hkey.
    destruct Hkey as [<- | [<- | []]]; [|discriminate Hnone].
    exists (VDict o1). exact Ho1. }
  destruct (difference_mapping_truthy unicode_fails
              [("attributes", VDict RA)]
              [("attributes", VDict A); ("type", VStr "vars")])
    as (O2 & HO2 & HT2).
  { intros key Hkey Hnone. simpl in Hkey.
    destruct Hkey as [<- | []].
    exists (VDict o2). exact Ho2. }
  unfold __ne__, __eq__. rewrite HO1. cbn [bind]. rewrite HT1, HO2.
  cbn [bind]. rewrite HT2.
  assert (Hm1 : matches unicode_fails (VDict A) (VDict RA)
                = negb (truthy (VDict o1)))
    by (unfold matches, empty; rewrite Ho1; reflexivity).
  assert (Hm2 : matches unicode_fails (VDict RA) (VDict A)
                = negb (truthy (VDict o2)))
    by (unfold matches, empty; rewrite Ho2; reflexivity).
  cbn [existsb keys map fst value_of dict_get String.eqb Ascii.eqb Bool.eqb
         is_none negb andb orb].
  rewrite Hm1, Hm2, Ht1, Ht2. unfold A, RA.
  cbn [existsb keys map fst value_of dict_get String.eqb Ascii.eqb Bool.eqb
         is_none negb andb orb].
  rewrite !negb_andb.
  rewrite <- (texts_differ unicode_fails Huf k rk),
    <- (texts_differ unicode_fails Huf d rd),
    <- (texts_differ unicode_fails Huf c rc),
    <- (booleans_differ unicode_fails Huf h rh),
    <- (booleans_differ unicode_fails Huf s rs), <- Hev.
  generalize (is_none rv); intros [];
  repeat match goal with
         | |- context [matches ?u ?x ?y] =>
             generalize (matches u x y); intros []
         end; reflexivity.
Qed.

(** X18: [is_different] of [hcp_terraform_var] is exact on the six
    attributes it sends: for a variable whose key, value, description and
    category are texts and whose [hcl] and [sensitive] are booleans, it
    answers true exactly when one of the six differs from the
    parameters. *)
Theorem var_is_different_exact (unicode_fails : value -> bool)
    (params r a : dict) (k v d c rk rv rd rc : string) (h s rh rs : bool) :
  (forall x, scalar x = true -> unicode_fails x = false) ->
  value_of params "key" = VStr k ->
  value_of params "value" = VStr v ->
  value_of params "description" = VStr d ->
  value_of params "category" = VStr c ->
  value_of params "hcl" = VBool h ->
  value_of params "sensitive" = VBool s ->
  value_of r "attributes" = VDict a ->
  value_of a "key" = VStr rk ->
  value_of a "value" = VStr rv ->
  value_of a "description" = VStr rd ->
  value_of a "category" = VStr rc ->
  value_of a "hcl" = VBool rh ->
  value_of a "sensitive" = VBool rs ->
  hcp_terraform_var.is_different unicode_fails params (VDict r)
  = Returns (negb ((k =? rk) && (v =? rv) && (d =? rd) && (c =? rc)
                   && Bool.eqb h rh && Bool.eqb s rs)).
Proof.
  intros Huf Hk Hv Hd Hc Hh Hs Ha Hrk Hrv Hrd Hrc Hrh Hrs.
  apply (var_is_different_fields unicode_fails params r a k v d c rk rd rc
           h s rh rs (VStr rv) (v =? rv)); try assumption.
  - rewrite (difference_texts unicode_fails Huf). eauto.
  - rewrite (difference_texts unicode_fails Huf). eauto.
  - apply (texts_differ unicode_fails Huf).
Qed.

Lemma var_is_different_exact_witness :
  hcp_terraform_var.is_different never_fails
    [("key", VStr "region"); ("value", VStr "eu"); ("description", VStr "zone");
     ("category", VStr "terraform"); ("hcl", VBool false);
     ("sensitive", VBool false)]
    (VDict [("id", VStr "var-1");
            ("attributes",
             VDict [("key", VStr "region"); ("value", VStr "us");
                    ("description", VStr "zone"); ("category", VStr "terraform");
                    ("hcl", VBool false); ("sensitive", VBool false)])])
  = Returns true.
Proof.
  apply (var_is_different_exact never_fails
           [("key", VStr "region"); ("value", VStr "eu");
            ("description", VStr "zone"); ("category", VStr "terraform");
            ("hcl", VBool false); ("sensitive", VBool false)]
           [("id", VStr "var-1");
            ("attributes",
             VDict [("key", VStr "region"); ("value", VStr "us");
                    ("description", VStr "zone"); ("category", VStr "terraform");
                    ("hcl", VBool false); ("sensitive", VBool false)])]
           [("key", VStr "region"); ("value", VStr "us");
            ("description", VStr "zone"); ("category", VStr "terraform");
            ("hcl", VBool false); ("sensitive", VBool false)]
           "region" "eu" "zone" "terraform" "region" "us" "zone" "terraform"
           false false false false);
    reflexivity.
Defined.

(** X19: when the platform lists a variable with a null value, as it does
    for a sensitive one, [is_different] of [hcp_terraform_var] does not
    see the value: it answers true exactly when one of the five other
    attributes differs, whatever the value of the parameters is. *)
Theorem var_is_different_null_value (unicode_fails : value -> bool)
    (params r a : dict) (k v d c rk rd rc : string) (h s rh rs : bool) :
  (forall x, scalar x = true -> unicode_fails x = false) ->
  value_of params "key" = VStr k ->
  value_of params "value" = VStr v ->
  value_of params "description" = VStr d ->
  value_of params "category" = VStr c ->
  value_of params "hcl" = VBool h ->
  value_of params "sensitive" = VBool s ->
  value_of r "attributes" = VDict a ->
  value_of a "key" = VStr rk ->
  value_of a "value" = VNone ->
  value_of a "description" = VStr rd ->
  value_of a "category" = VStr rc ->
  value_of a "hcl" = VBool rh ->
  value_of a "sensitive" = VBool rs ->
  hcp_terraform_var.is_different unicode_fails params (VDict r)
  = Returns (negb ((k =? rk) && (d =? rd) && (c =? rc)
                   && Bool.eqb h rh && Bool.eqb s rs)).
Proof.
  intros Huf Hk Hv Hd Hc Hh Hs Ha Hrk Hrv Hrd Hrc Hrh Hrs.
  rewrite (var_is_different_fields unicode_fails params r a k v d c rk rd rc
             h s rh rs VNone true Huf Hk Hv Hd Hc Hh Hs Ha Hrk Hrv Hrd Hrc
             Hrh Hrs).
  - rewrite andb_true_r. reflexivity.
  - exists VNone. reflexivity.
  - rewrite (difference_of_none unicode_fails Huf) by reflexivity. eauto.
  - unfold matches.
    rewrite (difference_of_none unicode_fails Huf) by reflexivity.
    reflexivity.
Qed.

Lemma var_is_different_null_value_witness :
  hcp_terraform_var.is_different never_fails
    [("key", VStr "token"); ("value", VStr "new-secret");
     ("description", VStr "zone"); ("category", VStr "env");
     ("hcl", VBool false); ("sensitive", VBool true)]
    (VDict [("id", VStr "var-1");
            ("attributes",
             VDict [("key", VStr "token"); ("value", VNone);
                    ("description", VStr "zone"); ("category", VStr "env");
                    ("hcl", VBool false); ("sensitive", VBool true)])])
  = Returns false.
Proof.
  apply (var_is_different_null_value never_fails
           [("key", VStr "token"); ("value", VStr "new-secret");
            ("description", VStr "zone"); ("category", VStr "env");
            ("hcl", VBool false); ("sensitive", VBool true)]
           [("id", VStr "var-1");
            ("attributes",
             VDict [("key", VStr "token"); ("value", VNone);
                    ("description", VStr "zone"); ("category", VStr "env");
                    ("hcl", VBool false); ("sensitive", VBool true)])]
           [("key", VStr "token"); ("value", VNone);
            ("description", VStr "zone"); ("category", VStr "env");
            ("hcl", VBool false); ("sensitive", VBool true)]
           "token" "new-secret" "zone" "env" "token" "zone" "env"
           false true false true);
    reflexivity.
Defined.

(* ------------------------------------------------------------------ *)
(** ** [HcpModule._merge_dictionaries] *)

Lemma dict_get_absent (key : string) (d : dict) :
  ~ In key (keys d) -> dict_get key d = None.
Proof.
  induction d as [|[k v] d IH]; intros Hnot; [reflexivity|].
  simpl. destruct (k =? key) eqn:E.
  - apply String.eqb_eq in E. exfalso. apply Hnot. now left.
  - apply IH. intros Hin. apply Hnot. now right.
Qed.

(** X20: in the merge of two dictionaries an entry of the second wins:
    a key is looked up in the second dictionary, and in the first only when
    the second has not got it. *)
Theorem merge_dictionaries_lookup (a b : dict) (key : string) :
  NoDup (keys b) ->
  dict_get key (_merge_dictionaries a b)
  = match dict_get key b with
    | Some v => Some v
    | None => dict_get key a
    end.
Proof.
  unfold _merge_dictionaries. revert a.
  induction b as [|[k v] b IH]; intros a Hnodup; [reflexivity|].
  simpl in Hnodup. inversion Hnodup as [|k' ks Hk Hrest]; subst.
  cbn [dict_update dict_get]. rewrite (IH _ Hrest).
  destruct (k =? key) eqn:E.
  - apply String.eqb_eq in E. subst key.
    rewrite (dict_get_absent k b Hk). apply dict_get_set.
  - destruct (dict_get key b); [reflexivity|].
    apply dict_get_set_other. intros ->.
    rewrite String.eqb_refl in E. discriminate E.
Qed.

Lemma merge_dictionaries_lookup_witness :
  dict_get "bearer_token"
    (_merge_dictionaries
       [("name", VStr "spec"); ("bearer_token", VStr "mine")]
       [("bearer_token", VStr "required")])
  = Some (VStr "required").
Proof.
  apply (merge_dictionaries_lookup
           [("name", VStr "spec"); ("bearer_token", VStr "mine")]
           [("bearer_token", VStr "required")] "bearer_token").
  repeat constructor. intros [].
Defined.

(* ------------------------------------------------------------------ *)
(** ** [return_if_object] *)

Lemma navigate_hash_errors (result : value) :
  navigate_hash result ["errors"] VNone
  = match result with
    | VDict d => Returns (if truthy result then value_of d "errors" else VNone)
    | _ => navigate_hash result ["errors"] VNone
    end.
Proof.
  destruct result as [| | | | |d]; try reflexivity.
  cbn [navigate_hash]. destruct (truthy (VDict d)); [|reflexivity].
  cbn [negb py_contains bind]. rewrite key_in_keys.
  unfold py_getitem, value_of.
  destruct (dict_get "errors" d); reflexivity.
Qed.

(** X21: what [return_if_object] of the resource modules returns is
    either nothing, for a status 204 and, when not-found is allowed, for
    404 and 403, or the JSON body of the response; and a body it returns
    never carries a non-empty [errors] member. *)
Theorem return_if_object_returns (allow_not_found : bool) (r : response)
    (result : value) :
  return_if_object allow_not_found r = Returns result ->
  (result = VNone
   /\ (status_code r = 204
       \/ (allow_not_found = true
           /\ (status_code r = 404 \/ status_code r = 403))))%Z
  \/ (json r = Some result
      /\ forall d, result = VDict d -> truthy (value_of d "errors") = false).
Proof.
  unfold return_if_object, response_json. intros H.
  destruct allow_not_found; cbn [andb] in H.
  - destruct (status_code r =? 404)%Z eqn:E404.
    { apply Z.eqb_eq in E404. injection H as <-. left. auto. }
    destruct (status_code r =? 204)%Z eqn:E204.
    { apply Z.eqb_eq in E204. injection H as <-. left. auto. }
    destruct (status_code r =? 403)%Z eqn:E403.
    { apply Z.eqb_eq in E403. injection H as <-. left. auto. }
    right. destruct (json r) as [body|]; [|discriminate H].
    cbn [except_JSONDecodeError bind] in H.
    destruct (navigate_hash body ["errors"] VNone) as [errors| | |] eqn:He;
      try discriminate H.
    cbn [bind] in H. destruct (truthy errors) eqn:Ht; [discriminate H|].
    injection H as <-. split; [reflexivity|].
    intros d ->. rewrite navigate_hash_errors in He.
    destruct (truthy (VDict d)) eqn:Hd.
    + injection He as <-. exact Ht.
    + destruct d; [reflexivity | discriminate Hd].
  - destruct (status_code r =? 204)%Z eqn:E204.
    { apply Z.eqb_eq in E204. injection H as <-. left. auto. }
    right. destruct (json r) as [body|]; [|discriminate H].
    cbn [except_JSONDecodeError bind] in H.
    destruct (navigate_hash body ["errors"] VNone) as [errors| | |] eqn:He;
      try discriminate H.
    cbn [bind] in H. destruct (truthy errors) eqn:Ht; [discriminate H|].
    injection H as <-. split; [reflexivity|].
    intros d ->. rewrite navigate_hash_errors in He.
    destruct (truthy (VDict d)) eqn:Hd.
    + injection He as <-. exact Ht.
    + destruct d; [reflexivity | discriminate Hd].
Qed.

Lemma return_if_object_returns_witness :
  (VDict [("data", VList [])] = VNone
   /\ (200 = 204 \/ (false = true /\ (200 = 404 \/ 200 = 403))))%Z
  \/ (Some (VDict [("data", VList [])]) = Some (VDict [("data", VList [])])
      /\ forall d, VDict [("data", VList [])] = VDict d ->
                   truthy (value_of d "errors") = false).
Proof.
  apply (return_if_object_returns false
           (mkResponse 200 (Some (VDict [("data", VList [])])))
           (VDict [("data", VList [])])).
  reflexivity.
Defined.

(** X22: [return_if_object] of the resource modules is fatal in two cases
    only: the body is no JSON, or it is a JSON object with a non-empty
    [errors] member, which becomes the message. *)
Theorem return_if_object_fatal (allow_not_found : bool) (r : response)
    (msg : failure) :
  return_if_object allow_not_found r = Fails msg ->
  (json r = None /\ msg = InvalidJson)
  \/ exists d, json r = Some (VDict d)
               /\ truthy (value_of d "errors") = true
               /\ msg = ApiErrors (value_of d "errors").
Proof.
  unfold return_if_object, response_json. intros H.
  destruct (allow_not_found && (status_code r =? 404)%Z); [discriminate H|].
  destruct (status_code r =? 204)%Z; [discriminate H|].
  destruct (allow_not_found && (status_code r =? 403)%Z); [discriminate H|].
  destruct (json r) as [body|]; cbn [except_JSONDecodeError bind] in H.
  - right. rewrite navigate_hash_errors in H.
    destruct body as [| | | | |d];
      try (exfalso; revert H;
           match goal with
           | |- context [navigate_hash ?s ?p ?v] =>
               destruct (navigate_hash s p v) as [e| | |] eqn:He
           end; cbn [bind]; intros H; try discriminate H;
           [simpl in He; try discriminate He;
            repeat match type of He with
                   | context [if ?c then _ else _] => destruct c
                   end; try discriminate He; injection He as <-;
            discriminate H
           |eapply navigate_hash_not_fatal, He]).
    exists d. split; [reflexivity|]. cbn [bind] in H.
    destruct (truthy (VDict d)) eqn:Hd.
    + destruct (truthy (value_of d "errors")) eqn:Ht; [|discriminate H].
      cbn [bind] in H. injection H as <-. auto.
    + discriminate H.
  - left. injection H as <-. auto.
Qed.

Lemma return_if_object_fatal_witness :
  (Some (VDict [("errors", VList [VStr "not found"])]) = None
   /\ ApiErrors (VList [VStr "not found"]) = InvalidJson)
  \/ exists d, Some (VDict [("errors", VList [VStr "not found"])])
               = Some (VDict d)
               /\ truthy (value_of d "errors") = true
               /\ ApiErrors (VList [VStr "not found"])
                  = ApiErrors (value_of d "errors").
Proof.
  apply (return_if_object_fatal false
           (mkResponse 404
              (Some (VDict [("errors", VList [VStr "not found"])])))
           (ApiErrors (VList [VStr "not found"]))).
  reflexivity.
Defined.

(** X23: but for the statuses 204, 403 and 404, [return_if_object] of the
    resource modules does not look at the status of the response: two
    responses with the same body get the same outcome. *)
Theorem return_if_object_ignores_status (allow_not_found : bool)
    (s1 s2 : Z) (body : option value) :
  ~ In s1 [204; 403; 404]%Z ->
  ~ In s2 [204; 403; 404]%Z ->
  return_if_object allow_not_found (mkResponse s1 body)
  = return_if_object allow_not_found (mkResponse s2 body).
Proof.
  intros H1 H2. unfold return_if_object. cbn [status_code].
  assert (E : forall s, ~ In s [204; 403; 404]%Z ->
                        (s =? 404)%Z = false /\ (s =? 204)%Z = false
                        /\ (s =? 403)%Z = false).
  { intros s Hs. repeat split; apply Z.eqb_neq; intros ->; apply Hs;
      simpl; auto. }
  destruct (E s1 H1) as (-> & -> & ->).
  destruct (E s2 H2) as (-> & -> & ->).
  rewrite !andb_false_r. reflexivity.
Qed.

Lemma return_if_object_ignores_status_witness :
  return_if_object false (mkResponse 200 (Some (VDict [])))
  = return_if_object false (mkResponse 500 (Some (VDict []))).
Proof.
  apply (return_if_object_ignores_status false 200 500 (Some (VDict [])));
    simpl; lia.
Defined.

(** X24: [return_if_object] of the [_info] modules is fatal on every
    status from 400 to 599 but 404: with the body of the response as the
    message when the body is JSON, as an invalid JSON response when it is
    not. *)
Theorem return_if_object_info_error (r : response) :
  (400 <= status_code r < 600)%Z ->
  status_code r <> 404%Z ->
  return_if_object_info r
  = match json r with
    | Some body => Fails (ApiCallError body)
    | None => Fails InvalidJson
    end.
Proof.
  intros [Hlo Hhi] H404.
  unfold return_if_object_info, raise_for_status, response_json.
  destruct (status_code r =? 404)%Z eqn:E404; [apply Z.eqb_eq in E404; lia|].
  destruct (status_code r =? 204)%Z eqn:E204; [apply Z.eqb_eq in E204; lia|].
  apply Z.leb_le in Hlo. apply Z.ltb_lt in Hhi. rewrite Hlo, Hhi. simpl.
  destruct (json r); reflexivity.
Qed.

Lemma return_if_object_info_error_witness :
  return_if_object_info (mkResponse 500 (Some (VDict [])))
  = Fails (ApiCallError (VDict [])).
Proof.
  apply (return_if_object_info_error (mkResponse 500 (Some (VDict []))));
    simpl; lia.
Defined.

(* ------------------------------------------------------------------ *)
(** ** [fetch_by_key] and [fetch_by_name] *)

(** One turn of the loop of [fetch_by_key], when it does not raise. *)
Lemma first_var_turn (key category : string) (var : value)
    (rest : list value) (v : value) :
  first_var key category (var :: rest) = Returns v ->
  if var_matches key category var then v = var
  else first_var key category rest = Returns v.
Proof.
  cbn [first_var]. intros H.
  destruct var as [| | | | |e]; try discriminate H.
  unfold py_get_default at 1 2 in H. cbn [bind] in H.
  unfold var_matches.
  destruct (dict_get "attributes" e) as [[| | | | |attributes]|];
    try discriminate H;
    unfold py_get, py_get_default in H; cbn [bind] in H.
  - fold (value_of attributes "key") in H.
    fold (value_of attributes "category") in H.
    destruct (eq_text (value_of attributes "key") key); [|exact H].
    cbn [andb].
    destruct (eq_text (value_of attributes "category") category);
      [injection H as <-; reflexivity | exact H].
  - exact H.
Qed.

(** X25: [fetch_by_key] returns the first listed variable with the wanted
    key and category, and nothing when no variable has them: the variables
    listed before the one it returns do not match. *)
Theorem first_var_first_match (key category : string) (vars : list value)
    (v : value) :
  first_var key category vars = Returns v ->
  (v = VNone
   /\ Forall (fun var => var_matches key category var = false) vars)
  \/ exists before after,
       vars = before ++ v :: after
       /\ var_matches key category v = true
       /\ Forall (fun var => var_matches key category var = false) before.
Proof.
  induction vars as [|var rest IH]; intros H.
  - injection H as <-. left. split; [reflexivity | constructor].
  - apply first_var_turn in H.
    destruct (var_matches key category var) eqn:Hvar.
    + subst v. right. exists [], rest.
      split; [reflexivity|]. split; [exact Hvar | constructor].
    + destruct (IH H) as [[-> Hall] | (before & after & -> & Hv & Hall)].
      * left. split; [reflexivity|]. constructor; assumption.
      * right. exists (var :: before), after.
        split; [reflexivity|]. split; [exact Hv|].
        constructor; assumption.
Qed.

Lemma first_var_first_match_witness :
  (var "var-2" "region" "terraform" = VNone
   /\ Forall (fun x => var_matches "region" "terraform" x = false)
        [var "var-1" "region" "env"; var "var-2" "region" "terraform";
         var "var-3" "region" "terraform"])
  \/ exists before after,
       [var "var-1" "region" "env"; var "var-2" "region" "terraform";
        var "var-3" "region" "terraform"]
       = before ++ var "var-2" "region" "terraform" :: after
       /\ var_matches "region" "terraform" (var "var-2" "region" "terraform")
          = true
       /\ Forall (fun x => var_matches "region" "terraform" x = false) before.
Proof.
  apply (first_var_first_match "region" "terraform"
           [var "var-1" "region" "env"; var "var-2" "region" "terraform";
            var "var-3" "region" "terraform"]
           (var "var-2" "region" "terraform")).
  reflexivity.
Defined.


